(** * simple-task-repeater: the scheduling engine of [STRApp]

    A shallow embedding of [src/simple_task_repeater/str_app.py] and the
    properties of its tokenizer, field resolver, catch-up loop, sweep and
    command handlers.

    Conventions of the embedding.
    - A Python [str] is a [string] whose characters are code points below
      256; a [dict] with string keys is a [gmap string _].
    - A Python exception is a value [Err e] of the error type [res]; only
      the class of the exception is kept.
    - An object of class [Task] is the mapping of its attributes (its
      [__dict__]), because [update] writes into that mapping directly.
    - A [datetime] is a day number and a time of day; adding
      [timedelta(days=n)] moves the day number and keeps the time of day.
      The functions of the application compute on day numbers without a
      bound. Module [Ranged] has the catch-up loop and the sweep with the
      ranges of [datetime] and [timedelta], outside of which Python raises
      [OverflowError]; what is said of periods near those ranges is said
      of the loops of that module.
    - A [while] loop takes a fuel argument and answers [None] when the fuel
      is used up; termination theorems exhibit a sufficient fuel. *)

From Stdlib Require Import ZArith Ascii String List Lia.
From stdpp Require Import base option list gmap strings fin_maps.

Local Open Scope string_scope.

(** ** Exceptions *)

Inductive exn : Type :=
| ValueError
| TypeError
| KeyError
| IndexError
| AttributeError
| NotFoundError
| ConflictError
| OverflowError.

Inductive res (A : Type) : Type :=
| Ok (a : A)
| Err (e : exn).
Arguments Ok {A} a.
Arguments Err {A} e.

#[global] Instance res_ret : MRet res := fun _ a => Ok a.
#[global] Instance res_bind : MBind res := fun _ _ f m =>
  match m with
  | Ok a => f a
  | Err e => Err e
  end.

(** ** Python string primitives *)

Module PyStr.

(** [str.isspace] on one character: U+0009..U+000D, U+001C..U+0020,
    U+0085 and U+00A0. *)
Definition isspace (c : ascii) : bool :=
  let n := nat_of_ascii c in
  ((9 <=? n) && (n <=? 13) || (28 <=? n) && (n <=? 32)
   || (n =? 133) || (n =? 160))%nat.

Fixpoint lstrip (s : string) : string :=
  match s with
  | EmptyString => EmptyString
  | String c s' => if isspace c then lstrip s' else s
  end.

Definition rstrip (s : string) : string :=
  String.rev (lstrip (String.rev s)).

(** [str.strip()] *)
Definition strip (s : string) : string := rstrip (lstrip s).

(** The longest prefix without whitespace, and what follows it. *)
Fixpoint span_word (s : string) : string * string :=
  match s with
  | EmptyString => (EmptyString, EmptyString)
  | String c s' =>
      if isspace c then (EmptyString, s)
      else let '(w, r) := span_word s' in (String c w, r)
  end.

(** [s.split(maxsplit=n)]: at most [n] words are cut off; what remains,
    without its leading whitespace, is the last element when it is not
    empty. *)
Fixpoint split (maxsplit : nat) (s : string) : list string :=
  match lstrip s with
  | EmptyString => []
  | s1 =>
      match maxsplit with
      | O => [s1]
      | S n => let '(w, r) := span_word s1 in w :: split n r
      end
  end.

(** [s.rsplit(maxsplit=n)]: the same scan from the right end. *)
Definition rsplit (maxsplit : nat) (s : string) : list string :=
  reverse (String.rev <$> split maxsplit (String.rev s)).

(** [s.split(sep)] for a one-character separator: never empty. *)
Fixpoint split_on (sep : ascii) (s : string) : list string :=
  match s with
  | EmptyString => [EmptyString]
  | String c s' =>
      if Ascii.eqb c sep then EmptyString :: split_on sep s'
      else match split_on sep s' with
           | h :: t => String c h :: t
           | [] => [String c EmptyString]
           end
  end.

Definition is_digit (c : ascii) : bool :=
  let n := nat_of_ascii c in ((48 <=? n) && (n <=? 57))%nat.

Definition digit_val (c : ascii) : Z := (Z.of_nat (nat_of_ascii c) - 48)%Z.

(** Whitespace that [int] skips around the literal: the C-locale set
    for code points below 127, the Unicode set above. *)
Definition int_isspace (c : ascii) : bool :=
  let n := nat_of_ascii c in
  ((9 <=? n) && (n <=? 13) || (n =? 32) || (n =? 133) || (n =? 160))%nat.

Fixpoint int_lstrip (s : string) : string :=
  match s with
  | EmptyString => EmptyString
  | String c s' => if int_isspace c then int_lstrip s' else s
  end.

(** Digits of a decimal literal, a single underscore allowed between two
    digits. [after_digit] tells whether the previous character was a
    digit. *)
Fixpoint int_digits (after_digit : bool) (acc : Z) (s : string) : option Z :=
  match s with
  | EmptyString => if after_digit then Some acc else None
  | String c s' =>
      if is_digit c then int_digits true (10 * acc + digit_val c)%Z s'
      else if Ascii.eqb c "_" then
        if after_digit then
          match s' with
          | String d _ => if is_digit d then int_digits false acc s' else None
          | EmptyString => None
          end
        else None
      else None
  end.

(** [int(s)] for a string in base 10. *)
Definition int (s : string) : option Z :=
  match String.rev (int_lstrip (String.rev (int_lstrip s))) with
  | String "-" s' => Z.opp <$> int_digits false 0 s'
  | String "+" s' => int_digits false 0 s'
  | s' => int_digits false 0 s'
  end.

End PyStr.

(** ** The command tokenizer *)

(** The [for part in parts[:-1]] loop of [_tokenize_message] and the
    assignment of the last segment after it. Unpacking the [rsplit] of a
    segment into two targets raises [ValueError] unless it has exactly two
    words. *)
Fixpoint tokenize_attrs (parts : list string) (key : string)
    (result : gmap string string) : res (gmap string string) :=
  match parts with
  | [] => Err IndexError
  | [last] => Ok (<[key := PyStr.strip last]> result)
  | part :: rest =>
      match PyStr.strip <$> PyStr.rsplit 1 part with
      | [v; k] => tokenize_attrs rest k (<[key := v]> result)
      | _ => Err ValueError
      end
  end.

Definition _tokenize_message (message : string) : res (gmap string string) :=
  match PyStr.split 2 message with
  | [_] => Err ValueError
  | [_; shortcut] => Ok {[ "shortcut" := shortcut ]}
  | [_; shortcut; message'] =>
      result ← tokenize_attrs (PyStr.split_on ":" message') "text"
                 {[ "shortcut" := shortcut ]};
      match result !! "text" with
      | None => Err KeyError
      | Some EmptyString => Ok (delete "text" result)
      | Some _ => Ok result
      end
  | _ => Err ValueError
  end.

(** ** Values, datetimes and tasks *)

(** A [datetime]: the day number of its calendar date and its time of
    day. *)
Record datetime : Type := mkDatetime { dt_day : Z; dt_time : Z }.

(** [to_date d], [d.date()]: the calendar date. *)
Definition to_date (d : datetime) : Z := dt_day d.

(** [d + datetime.timedelta(days=n)] on day numbers without a bound;
    [Ranged.datetime_add] is the addition with the range of [datetime]. *)
Definition add_days (d : datetime) (n : Z) : datetime :=
  mkDatetime (dt_day d + n) (dt_time d).

(** The Python values that reach a task's attributes. *)
#[local] Set Warnings "-register-all".
Inductive value : Type :=
| VNone
| VBool (b : bool)
| VInt (z : Z)
| VStr (s : string)
| VDatetime (d : datetime)
| VList (l : list value).
#[local] Set Warnings "register-all".

(** Truth value of a Python value, as [if v:] tests it. *)
Definition truthy (v : value) : bool :=
  match v with
  | VNone => false
  | VBool b => b
  | VInt z => negb (z =? 0)%Z
  | VStr s => negb (String.eqb s "")
  | VDatetime _ => true
  | VList l => match l with [] => false | _ => true end
  end.

(** [int(v)] *)
Definition py_int (v : value) : res Z :=
  match v with
  | VStr s => match PyStr.int s with Some z => Ok z | None => Err ValueError end
  | VInt z => Ok z
  | VBool b => Ok (if b then 1 else 0)%Z
  | _ => Err TypeError
  end.

(** A dictionary with string keys, and a [Task] as the dictionary of its
    attributes. *)
Abbreviation dict := (gmap string value).
Abbreviation task := (gmap string value).

(** Reading an attribute of an object. *)
Definition getattr (t : task) (name : string) : res value :=
  match t !! name with
  | Some v => Ok v
  | None => Err AttributeError
  end.

Definition as_str (v : value) : res string :=
  match v with VStr s => Ok s | _ => Err TypeError end.

Definition as_datetime (v : value) : res datetime :=
  match v with VDatetime d => Ok d | _ => Err TypeError end.

(** The argument of [datetime.timedelta(days=...)]: an integer;
    [Ranged.timedelta] is the constructor with its bound. *)
Definition as_days (v : value) : res Z :=
  match v with
  | VInt z => Ok z
  | VBool b => Ok (if b then 1 else 0)%Z
  | _ => Err TypeError
  end.

(** [task.date.date()]: a value that is not a datetime has no method
    [date]. *)
Definition task_day (t : task) : res Z :=
  v ← getattr t "date";
  match v with
  | VDatetime d => Ok (to_date d)
  | _ => Err AttributeError
  end.

Definition DEFAULT_PERIOD : Z := 4.
Definition TASK_PER_DAY_LIMIT : nat := 3.

(** ** The repository *)

Abbreviation db := (gmap string (gmap string (gmap string value))).

(** Modelled from the spec: class [STRDatabase] (module [str_database]) is
    not among the sources. The spec's repository is keyed by user id, then
    by shortcut; [get_task] fails when nothing is found, [update_task]
    replaces the stored task that matches (user, shortcut), [add_user] and
    [remove_user] fail on a present, respectively absent, user. Objects
    handed out by the repository are copies: a change reaches the store
    through [update_task] only. *)
Module Repo.

Definition user_names (d : db) : list string := (map_to_list d).*1.

Definition get_users_tasks (d : db) (u : string) : list task :=
  (map_to_list (default ∅ (d !! u))).*2.

Definition get_task (d : db) (u s : string) : res task :=
  match d !! u ≫= (.!! s) with
  | Some t => Ok t
  | None => Err NotFoundError
  end.

(** The stored task under user [u] whose shortcut is that of [t] is
    replaced by [t]. *)
Definition update_task (d : db) (u : string) (t : task) : res db :=
  s ← getattr t "shortcut" ≫= as_str;
  match d !! u with
  | Some m =>
      match m !! s with
      | Some _ => Ok (<[u := <[s := t]> m]> d)
      | None => Err NotFoundError
      end
  | None => Err NotFoundError
  end.

Definition add_task (d : db) (t : task) : res db :=
  u ← getattr t "user" ≫= as_str;
  s ← getattr t "shortcut" ≫= as_str;
  match d !! u with
  | Some m =>
      match m !! s with
      | Some _ => Err ConflictError
      | None => Ok (<[u := <[s := t]> m]> d)
      end
  | None => Err NotFoundError
  end.

Definition remove_task (d : db) (u s : string) : res db :=
  match d !! u with
  | Some m =>
      match m !! s with
      | Some _ => Ok (<[u := delete s m]> d)
      | None => Err NotFoundError
      end
  | None => Err NotFoundError
  end.

End Repo.

(** ** Computations *)

(** A computation that contains a [while] loop: [None] when the fuel ran
    out, otherwise a value or an exception. *)
Definition looping (A : Type) : Type := option (res A).

#[global] Instance looping_ret : MRet looping := fun _ a => Some (Ok a).
#[global] Instance looping_bind : MBind looping := fun _ _ f m =>
  match m with
  | Some (Ok a) => f a
  | Some (Err e) => Some (Err e)
  | None => None
  end.

Definition lift {A} (r : res A) : looping A := Some r.

(** A command on the repository: the store is threaded through, and an
    exception leaves the store as it was when the exception was raised. *)
Definition cmd (A : Type) : Type := db → option (res A * db).

#[global] Instance cmd_ret : MRet cmd := fun _ a d => Some (Ok a, d).
#[global] Instance cmd_bind : MBind cmd := fun _ _ f m d =>
  match m d with
  | Some (Ok a, d') => f a d'
  | Some (Err e, d') => Some (Err e, d')
  | None => None
  end.

(** Reading the store. *)
Definition query {A} (f : db → looping A) : cmd A := fun d =>
  match f d with
  | Some r => Some (r, d)
  | None => None
  end.

(** A write to the store; a failed write changes nothing. *)
Definition store (f : db → res db) : cmd unit := fun d =>
  match f d with
  | Ok d' => Some (Ok tt, d')
  | Err e => Some (Err e, d)
  end.

Definition raise_or {A} (r : res A) : cmd A := fun d => Some (r, d).

(** ** The application *)

Section STRApp.

(** [get_current_datetime()] of [calmlib]: the clock, read once per
    command. *)
Variable now : datetime.

(** [dateparser.parse]: an external function. [Err e] stands for a call
    that raises, [Ok v] for one that returns [v]. *)
Variable parse_date : value → res value.

(** The constructor of class [Task] (module [base]) on its keyword
    arguments, [str(v)] inside an f-string and [repr(task)]. *)
Variable Task : dict → res task.
Variable py_str : value → string.
Variable py_repr : task → string.

Definition _determine_suitable_period (user : string) : Z := DEFAULT_PERIOD.

(** [[task.date.date() for task in tasks]] *)
Fixpoint task_days (tasks : list task) : res (list Z) :=
  match tasks with
  | [] => Ok []
  | t :: ts => d ← task_day t; ds ← task_days ts; Ok (d :: ds)
  end.

(** [collections.Counter(l)] and its lookup, which answers 0 for a key
    that was never counted. *)
Definition Counter (l : list Z) : gmap Z nat :=
  foldr (fun x c => <[x := S (default 0%nat (c !! x))]> c) ∅ l.

Definition counted (c : gmap Z nat) (x : Z) : nat := default 0%nat (c !! x).

(** The [while] loop of [_determine_suitable_date]. *)
Fixpoint find_date (fuel : nat) (tasks_dates : gmap Z nat)
    (task_date : datetime) : looping datetime :=
  match fuel with
  | O => None
  | S n =>
      if (TASK_PER_DAY_LIMIT <=? counted tasks_dates (to_date task_date))%nat
      then find_date n tasks_dates (add_days task_date 1)
      else Some (Ok task_date)
  end.

Definition _determine_suitable_date (fuel : nat) (d : db)
    (user_name : string) : looping datetime :=
  days ← lift (task_days (Repo.get_users_tasks d user_name));
  find_date fuel (Counter days) now.

Definition _parse_task (fuel : nat) (d : db) (user : string)
    (t : dict) : looping dict :=
  t1 ← match t !! "date" with
       | Some v =>
           match parse_date v with
           | Ok v' => Some (Ok (<["date" := v']> t))
           | Err _ => Some (Err ValueError)
           end
       | None =>
           dt ← _determine_suitable_date fuel d user;
           Some (Ok (<["date" := VDatetime dt]> t))
       end;
  match t1 !! "period" with
  | Some v => p ← lift (py_int v); Some (Ok (<["period" := VInt p]> t1))
  | None =>
      Some (Ok (<["period" := VInt (_determine_suitable_period user)]> t1))
  end.

Definition parse_message (fuel : nat) (d : db) (user message : string)
    : looping dict :=
  tokens ← lift (_tokenize_message message);
  _parse_task fuel d user (VStr <$> tokens).

(** *** Command handlers

    The bodies of the handlers, without the decorators [command] and
    [catch_errors] of module [telegram_bot]. *)

(** [task = {'user': user}; task.update(fields)]: the parsed fields are
    written over the mapping that holds the sender. *)
Definition add_fields (user : string) (fields : dict) : dict :=
  fields ∪ {[ "user" := VStr user ]}.

Definition add (fuel : nat) (user message : string) : cmd value :=
  fields ← query (fun d => parse_message fuel d user message);
  t ← raise_or (Task (add_fields user fields));
  store (fun d => Repo.add_task d t);;
  sc ← raise_or (getattr t "shortcut");
  mret (VStr ("Added task " +:+ py_str sc)).

(** [task.__dict__.update(update)] writes every key of [update] over the
    task's attributes. *)
Definition update (fuel : nat) (user message : string) : cmd value :=
  upd ← query (fun d => parse_message fuel d user message);
  key ← raise_or (match upd !! "shortcut" with
                  | Some v => as_str v
                  | None => Err KeyError
                  end);
  t ← query (fun d => lift (Repo.get_task d user key));
  let t' := upd ∪ t in
  store (fun d => Repo.update_task d user t');;
  sc ← raise_or (getattr t' "shortcut");
  mret (VStr ("Successfully updated task " +:+ py_str sc)).

Definition remove (fuel : nat) (user message : string) : cmd value :=
  t ← query (fun d => parse_message fuel d user message);
  key ← raise_or (match t !! "shortcut" with
                  | Some v => as_str v
                  | None => Err KeyError
                  end);
  store (fun d => Repo.remove_task d user key);;
  mret (VStr ("Task " +:+ py_str (VStr key) +:+ " removed")).

Definition get (fuel : nat) (user message : string) : cmd value :=
  t ← query (fun d => parse_message fuel d user message);
  key ← raise_or (match t !! "shortcut" with
                  | Some v => as_str v
                  | None => Err KeyError
                  end);
  t' ← query (fun d => lift (Repo.get_task d user key));
  mret (VStr (py_repr t')).

(** [task.completions.append(date)] *)
Definition append_completion (t : task) (date : value) : res task :=
  c ← getattr t "completions";
  match c with
  | VList l => Ok (<["completions" := VList (l ++ [date])]> t)
  | _ => Err AttributeError
  end.

(** [update_task(task)]: the slot is found from the task's own user and
    shortcut. *)
Definition update_own (t : task) : cmd unit :=
  u ← raise_or (getattr t "user" ≫= as_str);
  store (fun d => Repo.update_task d u t).

Definition complete (fuel : nat) (user message : string) : cmd value :=
  t ← query (fun d => parse_message fuel d user message);
  date ← raise_or (match t !! "date" with
                   | Some v => parse_date v
                   | None => Ok (VDatetime now)
                   end);
  key ← raise_or (match t !! "shortcut" with
                  | Some v => as_str v
                  | None => Err KeyError
                  end);
  t' ← query (fun d => lift (Repo.get_task d user key));
  t1 ← raise_or (append_completion t' date);
  t2 ← raise_or (p ← getattr t1 "period" ≫= as_days;
                 dt ← as_datetime date;
                 Ok (<["date" := VDatetime (add_days dt p)]> t1));
  update_own t2;;
  mret VNone.

(** *** Catching up *)

(** Whether the loop of [_actualize_tasks] runs once more:
    [to_date(task.date) < to_date(today)]. *)
Definition overdue (t : task) : res bool :=
  d ← getattr t "date" ≫= as_datetime;
  Ok (to_date d <? to_date now)%Z.

(** One pass through the body of the loop. *)
Definition catch_up_step (t : task) : res task :=
  r ← getattr t "reschedule";
  if truthy r then Ok (<["date" := VDatetime now]> t)
  else
    d ← getattr t "date" ≫= as_datetime;
    p ← getattr t "period" ≫= as_days;
    Ok (<["date" := VDatetime (add_days d p)]> t).

(** The [while] loop on one task. *)
Fixpoint catch_up (fuel : nat) (t : task) : looping task :=
  match fuel with
  | O => None
  | S n =>
      b ← lift (overdue t);
      if b : bool then t' ← lift (catch_up_step t); catch_up n t'
      else Some (Ok t)
  end.

(** The inner [for] loop: the tasks of one user. *)
Fixpoint actualize_each (fuel : nat) (tasks : list task) : cmd unit :=
  match tasks with
  | [] => mret tt
  | t :: rest =>
      t' ← query (fun _ => catch_up fuel t);
      update_own t';;
      actualize_each fuel rest
  end.

(** The outer [for] loop: [get_users_tasks] is asked when the loop
    reaches the user. *)
Fixpoint actualize_users (fuel : nat) (users : list string) : cmd unit :=
  match users with
  | [] => mret tt
  | u :: rest =>
      tasks ← query (fun d => lift (Ok (Repo.get_users_tasks d u)));
      actualize_each fuel tasks;;
      actualize_users fuel rest
  end.

Definition _actualize_tasks (fuel : nat) : cmd unit :=
  users ← query (fun d => lift (Ok (Repo.user_names d)));
  actualize_users fuel users.

End STRApp.

(** ** Catching up within the ranges of [datetime] and [timedelta]

    [datetime] holds the days from 0001-01-01 to 9999-12-31 and
    [timedelta] at most 999999999 days either way; an operation that
    leaves these ranges raises [OverflowError]. The loops of
    [_actualize_tasks] above compute on day numbers without a bound; the
    loops of this module are the same loops with the two checks, and they
    are the ones that are compared with the program where a period or a
    date can come near the bounds. *)

Module Ranged.

(** [date.min.toordinal()], [date.max.toordinal()] and the largest
    magnitude of [timedelta.days]. *)
Definition MIN_DAY : Z := 1.
Definition MAX_DAY : Z := 3652059.
Definition MAX_DELTA_DAYS : Z := 999999999.

(** [datetime.timedelta(days=v)] *)
Definition timedelta (v : value) : res Z :=
  n ← as_days v;
  if (Z.abs n <=? MAX_DELTA_DAYS)%Z then Ok n else Err OverflowError.

(** [d + delta] for a [delta] of [n] days. *)
Definition datetime_add (d : datetime) (n : Z) : res datetime :=
  if ((MIN_DAY <=? dt_day d + n) && (dt_day d + n <=? MAX_DAY))%Z
  then Ok (add_days d n)
  else Err OverflowError.

Section Loops.

Variable now : datetime.

(** One pass through the body of the loop. *)
Definition catch_up_step (t : task) : res task :=
  r ← getattr t "reschedule";
  if truthy r then Ok (<["date" := VDatetime now]> t)
  else
    d ← getattr t "date" ≫= as_datetime;
    p ← getattr t "period" ≫= timedelta;
    d' ← datetime_add d p;
    Ok (<["date" := VDatetime d']> t).

(** The [while] loop on one task. *)
Fixpoint catch_up (fuel : nat) (t : task) : looping task :=
  match fuel with
  | O => None
  | S n =>
      b ← lift (overdue now t);
      if b : bool then t' ← lift (catch_up_step t); catch_up n t'
      else Some (Ok t)
  end.

(** The inner [for] loop: the tasks of one user. *)
Fixpoint actualize_each (fuel : nat) (tasks : list task) : cmd unit :=
  match tasks with
  | [] => mret tt
  | t :: rest =>
      t' ← query (fun _ => catch_up fuel t);
      update_own t';;
      actualize_each fuel rest
  end.

(** The outer [for] loop. *)
Fixpoint actualize_users (fuel : nat) (users : list string) : cmd unit :=
  match users with
  | [] => mret tt
  | u :: rest =>
      tasks ← query (fun d => lift (Ok (Repo.get_users_tasks d u)));
      actualize_each fuel tasks;;
      actualize_users fuel rest
  end.

Definition _actualize_tasks (fuel : nat) : cmd unit :=
  users ← query (fun d => lift (Ok (Repo.user_names d)));
  actualize_users fuel users.

End Loops.

End Ranged.

(** ** The rest of the application *)

(** Modelled from the spec: [add_user] and [remove_user] of class
    [STRDatabase], which is not among the sources. [add_user] fails on a
    user that exists, [remove_user] on one that does not; the exception is
    [ValueError], the one [start] and [stop] catch. A new user has no
    tasks, and a removed user takes its tasks along. *)
Module RepoUsers.

Definition add_user (d : db) (u : string) : res db :=
  match d !! u with
  | Some _ => Err ValueError
  | None => Ok (<[u := ∅]> d)
  end.

Definition remove_user (d : db) (u : string) : res db :=
  match d !! u with
  | Some _ => Ok (delete u d)
  | None => Err ValueError
  end.

End RepoUsers.

(** [try: ... except ValueError: return reply]: a [ValueError] becomes the
    reply, any other exception goes on. *)
Definition except_ValueError (body : cmd value) (reply : value) : cmd value :=
  fun d =>
    match body d with
    | Some (Err ValueError, d') => Some (Ok reply, d')
    | r => r
    end.

Definition start (user message : string) : cmd value :=
  except_ValueError
    (store (fun d => RepoUsers.add_user d user);;
     mret (VStr ("Added user " +:+ user +:+ " successfully")))
    (VStr ("User " +:+ user +:+ " already active")).

Definition stop (user message : string) : cmd value :=
  except_ValueError
    (store (fun d => RepoUsers.remove_user d user);;
     mret (VStr ("Removed user " +:+ user +:+ " successfully")))
    (VStr ("No user " +:+ user)).

(** ['\n'.join(l)] *)
Fixpoint join (sep : string) (l : list string) : string :=
  match l with
  | [] => EmptyString
  | [x] => x
  | x :: rest => x +:+ sep +:+ join sep rest
  end.

Definition newline : string := String (ascii_of_nat 10) EmptyString.

(** [[task.shortcut for task in tasks]] *)
Fixpoint shortcuts (tasks : list task) : res (list value) :=
  match tasks with
  | [] => Ok []
  | t :: ts => v ← getattr t "shortcut"; vs ← shortcuts ts; Ok (v :: vs)
  end.

(** The items of a [join] must be strings. *)
Fixpoint all_str (vs : list value) : res (list string) :=
  match vs with
  | [] => Ok []
  | v :: rest => s ← as_str v; ss ← all_str rest; Ok (s :: ss)
  end.

Definition list_all (user message : string) : cmd value :=
  tasks ← query (fun d => lift (Ok (Repo.get_users_tasks d user)));
  raise_or (vs ← shortcuts tasks; ss ← all_str vs;
            Ok (VStr (join newline ss))).

Section Actualizer.

Variable now : datetime.

(** [get_current_date()] of [calmlib]: the calendar date of the clock. *)
Definition get_current_date : Z := to_date now.

(** [actualize_tasks]: the sweep behind its guard. The attribute
    [_last_actualize_date] is handed in and the new value is handed back;
    an exception of the sweep leaves the attribute as it was. *)
Definition actualize_tasks (fuel : nat) (_last_actualize_date : Z) : cmd Z :=
  if (_last_actualize_date <? get_current_date)%Z
  then _actualize_tasks now fuel;; mret get_current_date
  else mret _last_actualize_date.

(** The part of [__init__] that belongs to the application: the sweep,
    then the first value of [_last_actualize_date]. *)
Definition __init__ (fuel : nat) : cmd Z :=
  _actualize_tasks now fuel;; mret get_current_date.

End Actualizer.

(** * Vocabulary of the properties, and sample data *)

(** Strings of whitespace only, and strings without whitespace. *)
Fixpoint all_space (s : string) : bool :=
  match s with
  | EmptyString => true
  | String c s' => PyStr.isspace c && all_space s'
  end.

Fixpoint no_space (s : string) : bool :=
  match s with
  | EmptyString => true
  | String c s' => negb (PyStr.isspace c) && no_space s'
  end.

(** A whitespace-delimited token: not empty, no whitespace inside. *)
Definition word (s : string) : Prop := s ≠ EmptyString ∧ no_space s = true.

(** A run of whitespace between two tokens. *)
Definition gap (s : string) : Prop := s ≠ EmptyString ∧ all_space s = true.

(** What may follow a token: nothing, or something that starts with
    whitespace. *)
Definition ends_word (s : string) : Prop :=
  match s with
  | EmptyString => True
  | String c _ => PyStr.isspace c = true
  end.

(** A date parser that rejects everything, and one that answers [None] to
    everything. *)
Definition no_parser (v : value) : res value := Err TypeError.

Definition none_parser (v : value) : res value := Ok VNone.

(** How many of the days in [days] are the day [x]. *)
Definition on_day (x : Z) (days : list Z) : nat :=
  length (filter (fun y => y = x) days).

(** How many of the days in [days] are [x] or later. *)
Definition from_day (x : Z) (days : list Z) : nat :=
  length (filter (fun y => (x ≤ y)%Z) days).

(** A task of the data model due on [day]. *)
Definition dated (user shortcut : string) (day : Z) : task :=
  list_to_map [("user", VStr user); ("shortcut", VStr shortcut);
               ("date", VDatetime (mkDatetime day 32400));
               ("period", VInt 4); ("reschedule", VBool false);
               ("completions", VList [])].

(** Three tasks of one user on 2024-01-01, day 738886. *)
Definition three_today : db :=
  {[ "bob" := list_to_map [("a", dated "bob" "a" 738886);
                           ("b", dated "bob" "b" 738886);
                           ("c", dated "bob" "c" 738886)] ]}.

(** A task that is not rescheduled but walks by its period. *)
Definition walking (day period : Z) : task :=
  list_to_map [("user", VStr "bob"); ("shortcut", VStr "abc");
               ("date", VDatetime (mkDatetime day 32400));
               ("period", VInt period); ("reschedule", VBool false);
               ("completions", VList [])].

(** The task stored for a user under a shortcut. *)
Definition stored (d : db) (u s : string) : option task := d !! u ≫= (.!! s).

(** The value of a field in the mapping a computation returns. *)
Definition field_of (r : looping dict) (k : string) : option value :=
  match r with
  | Some (Ok t) => t !! k
  | _ => None
  end.

(** How a command ends, and an attribute of a stored task after it. *)
Definition outcome {A} (r : option (res A * db)) : option (res A) := fst <$> r.

Definition field_after {A} (r : option (res A * db)) (u s k : string)
    : option value :=
  match r with
  | Some (_, d') => stored d' u s ≫= (.!! k)
  | None => None
  end.

(** Every stored task, with its user and its shortcut. *)
Definition entries (d : db) : list (string * (string * task)) :=
  map_to_list d ≫= (fun um => (fun st => (um.1, st)) <$> map_to_list um.2).

(** The task as the loop leaves it. *)
Definition caught_up (now : datetime) (fuel : nat) (t : task) : task :=
  match catch_up now fuel t with
  | Some (Ok t') => t'
  | _ => t
  end.

(** The loop stops on [t] within the fuel and the result still carries
    the user and the shortcut it is stored under. *)
Definition ready (now : datetime) (fuel : nat) (u s : string) (t : task)
    : Prop :=
  catch_up now fuel t = Some (Ok (caught_up now fuel t))
  ∧ caught_up now fuel t !! "user" = Some (VStr u)
  ∧ caught_up now fuel t !! "shortcut" = Some (VStr s).

(** Every stored task carries the user and the shortcut it is stored
    under. *)
Definition well_kept (d : db) : Prop :=
  ∀ u s t, stored d u s = Some t →
    t !! "user" = Some (VStr u) ∧ t !! "shortcut" = Some (VStr s).

(** A task as the data model has it: a datetime for its date, a reschedule
    flag, a positive integer for its period. *)
Definition schedulable (t : task) : Prop :=
  ∃ (D : datetime) (rs : value) (P : Z),
    t !! "date" = Some (VDatetime D) ∧ t !! "reschedule" = Some rs
    ∧ t !! "period" = Some (VInt P) ∧ (0 < P)%Z.

(** The calendar date of the task is not before today's. *)
Definition current (now : datetime) (t : task) : Prop :=
  ∃ D : datetime,
    t !! "date" = Some (VDatetime D) ∧ (to_date now ≤ to_date D)%Z.



(** A check of the two hypotheses of the sweep that can be run. *)
Definition entry_ok (e : string * (string * task)) : bool :=
  let '(u, (s, t)) := e in
  match t !! "user", t !! "shortcut", t !! "date", t !! "reschedule",
        t !! "period" with
  | Some (VStr u'), Some (VStr s'), Some (VDatetime _), Some _,
    Some (VInt P) => String.eqb u' u && String.eqb s' s && (0 <? P)%Z
  | _, _, _, _, _ => false
  end.

(** A task with a text. *)
Definition chore (user shortcut : string) (day period : Z)
    (reschedule : bool) : task :=
  list_to_map [("user", VStr user); ("shortcut", VStr shortcut);
               ("text", VStr "water the plants");
               ("date", VDatetime (mkDatetime day 32400));
               ("period", VInt period); ("reschedule", VBool reschedule);
               ("completions", VList [])].

(** Two users; three tasks are behind day 738896, one is not. *)
Definition two_users : db :=
  list_to_map
    [("alice", list_to_map [("plants", chore "alice" "plants" 738886 3 false);
                            ("bins", chore "alice" "bins" 738890 7 true)]);
     ("bob", list_to_map [("gym", chore "bob" "gym" 738895 2 false);
                          ("rent", chore "bob" "rent" 738900 30 false)])].

(** [str(v)] on a string. *)
Definition str_of (v : value) : string :=
  match v with VStr s => s | _ => EmptyString end.

(** One user, whose task [abc] is due on day 738900 and comes back every
    7 days. *)
Definition one_task : db :=
  {[ "bob" := {[ "abc" := chore "bob" "abc" 738900 7 false ]} ]}.

(** A date parser that hands a datetime back as it is, and one that
    accepts strings only; neither knows a date format. *)
Definition passing_parser (v : value) : res value :=
  match v with
  | VDatetime dt => Ok (VDatetime dt)
  | VStr _ => Ok VNone
  | _ => Err TypeError
  end.

Definition strict_parser (v : value) : res value :=
  match v with
  | VStr _ => Ok VNone
  | _ => Err TypeError
  end.

(** Three tasks of one user on day 738886, and a task [abc] with period 3
    that was due on day 738880. *)
Definition busy_day : db :=
  {[ "bob" := list_to_map [("a", dated "bob" "a" 738886);
                           ("b", dated "bob" "b" 738886);
                           ("c", dated "bob" "c" 738886);
                           ("abc", chore "bob" "abc" 738880 3 false)] ]}.

(** A character other than the colon. *)
Fixpoint no_colon (s : string) : bool :=
  match s with
  | EmptyString => true
  | String c s' => negb (Ascii.eqb c ":") && no_colon s'
  end.

(** What the remainder of a message starts with: a character that is not
    whitespace. *)
Definition starts_token (s : string) : Prop :=
  match s with
  | EmptyString => False
  | String c _ => PyStr.isspace c = false
  end.

(** One user, whose only task has [None] for its date. *)
Definition undated_db : db :=
  {[ "bob" := {[ "abc" := <["date" := VNone]>
                            (chore "bob" "abc" 738886 4 false) ]} ]}.

(** A command that leaves the repository as it found it, however it
    ends. *)
Definition read_only {A} (c : cmd A) : Prop :=
  ∀ (d d' : db) (r : res A), c d = Some (r, d') → d' = d.

(** The repository [two_users] after the sweep of day 738896 at time 0. *)
Definition two_users_swept : db :=
  list_to_map
    [("alice",
      list_to_map
        [("plants", chore "alice" "plants" 738898 3 false);
         ("bins", <["date" := VDatetime (mkDatetime 738896 0)]>
                    (chore "alice" "bins" 738890 7 true))]);
     ("bob", list_to_map [("gym", chore "bob" "gym" 738897 2 false);
                          ("rent", chore "bob" "rent" 738900 30 false)])].

(** A command that keeps a property of the repository, however it
    ends. *)
Definition preserves {A} (P : db → Prop) (c : cmd A) : Prop :=
  ∀ (d d' : db) (r : res A), P d → c d = Some (r, d') → P d'.

(** A date that [datetime] can hold. *)
Definition valid (D : datetime) : Prop :=
  (Ranged.MIN_DAY ≤ to_date D ≤ Ranged.MAX_DAY)%Z.






(** One user without tasks. *)
Definition bob_only : db := {[ "bob" := ∅ ]}.

(** What is relied on of [dateparser.parse]: it reads strings only, so a
    value of another type makes it raise, and what it returns is a
    datetime or [None]. *)
Definition strings_only (parse_date : value → res value) : Prop :=
  (∀ v, (∀ s, v ≠ VStr s) → ∃ e, parse_date v = Err e)
  ∧ (∀ s v, parse_date (VStr s) = Ok v →
       v = VNone ∨ ∃ dt, v = VDatetime dt).

(** * Properties *)

(** ** Whitespace and words *)

Lemma append_cons (c : ascii) (s t : string) :
  String c s +:+ t = String c (s +:+ t).
Proof. reflexivity. Qed.

Lemma append_empty_l (s : string) : EmptyString +:+ s = s.
Proof. reflexivity. Qed.

Lemma append_empty_r (s : string) : s +:+ EmptyString = s.
Proof.
  induction s as [|c s IH]; [done|]. by rewrite append_cons, IH.
Qed.

Lemma lstrip_all_space (ws s : string) :
  all_space ws = true → PyStr.lstrip (ws +:+ s) = PyStr.lstrip s.
Proof.
  induction ws as [|c ws IH]; [done|].
  intros [Hc Hws]%andb_true_iff. rewrite append_cons. simpl.
  rewrite Hc. auto.
Qed.

Lemma lstrip_word (w s : string) :
  word w → PyStr.lstrip (w +:+ s) = w +:+ s.
Proof.
  intros [Hne Hw]. destruct w as [|c w]; [done|].
  apply andb_true_iff in Hw as [Hc _]. apply negb_true_iff in Hc.
  rewrite append_cons. simpl. by rewrite Hc.
Qed.

Lemma span_word_app (w s : string) :
  no_space w = true → ends_word s → PyStr.span_word (w +:+ s) = (w, s).
Proof.
  intros Hw Hs. induction w as [|c w IH].
  - rewrite append_empty_l. destruct s as [|c s]; simpl in *; [done|].
    by rewrite Hs.
  - apply andb_true_iff in Hw as [Hc Hw]. apply negb_true_iff in Hc.
    rewrite append_cons. simpl. by rewrite Hc, (IH Hw).
Qed.

Lemma gap_ends_word (ws s : string) : gap ws → ends_word (ws +:+ s).
Proof.
  intros [Hne Hws]. destruct ws as [|c ws]; [done|].
  rewrite append_cons. simpl in *. by apply andb_true_iff in Hws as [Hc _].
Qed.

Lemma all_space_ends_word (ws : string) : all_space ws = true → ends_word ws.
Proof.
  destruct ws as [|c ws]; simpl; [done|]. by intros [Hc _]%andb_true_iff.
Qed.

Lemma word_app_nonempty (w s : string) : word w → w +:+ s ≠ EmptyString.
Proof. intros [Hne _]. by destruct w. Qed.

Lemma split_succ (n : nat) (s : string) :
  PyStr.lstrip s ≠ EmptyString →
  PyStr.split (S n) s
  = let '(w, r) := PyStr.span_word (PyStr.lstrip s) in w :: PyStr.split n r.
Proof.
  intros Hne. change (PyStr.split (S n) s) with
    (match PyStr.lstrip s with
     | EmptyString => []
     | s1 => let '(w, r) := PyStr.span_word s1 in w :: PyStr.split n r
     end).
  by destruct (PyStr.lstrip s).
Qed.

(** The first token is cut off, whatever comes before it. *)
Lemma split_cons (n : nat) (ws w s : string) :
  all_space ws = true → word w → ends_word s →
  PyStr.split (S n) (ws +:+ w +:+ s) = w :: PyStr.split n s.
Proof.
  intros Hws Hw Hs.
  assert (E : PyStr.lstrip (ws +:+ w +:+ s) = w +:+ s)
    by (by rewrite (lstrip_all_space _ _ Hws), (lstrip_word _ _ Hw)).
  rewrite split_succ; rewrite E; [|by apply word_app_nonempty].
  rewrite span_word_app; [done|apply Hw|done].
Qed.

Lemma split_all_space (n : nat) (ws : string) :
  all_space ws = true → PyStr.split n ws = [].
Proof.
  intros Hws. pose proof (lstrip_all_space ws EmptyString Hws) as H.
  rewrite append_empty_r in H. simpl in H.
  destruct n; simpl; by rewrite H.
Qed.

(** The tokens of [ws1 verb ws2 tok ws3]. *)
Lemma split_two_tokens (ws1 verb ws2 tok ws3 : string) :
  all_space ws1 = true → word verb → gap ws2 → word tok →
  all_space ws3 = true →
  PyStr.split 2 (ws1 +:+ verb +:+ ws2 +:+ tok +:+ ws3) = [verb; tok].
Proof.
  intros H1 Hv H2 Ht H3.
  rewrite (split_cons 1 ws1 verb) by (try done; by apply gap_ends_word).
  rewrite (split_cons 0 ws2 tok);
    [|apply H2|done|by apply all_space_ends_word].
  by rewrite split_all_space.
Qed.

(** ** The tokenizer *)

(** C10: when the message is a verb followed by exactly one more
    whitespace-delimited token, the tokenizer answers the mapping that holds
    that token under [shortcut] and nothing else. The token is arbitrary, so
    it may contain colons: the single-token case never splits on [:]. *)
Theorem tokenize_single_token (ws1 verb ws2 tok ws3 : string) :
  all_space ws1 = true → word verb → gap ws2 → word tok →
  all_space ws3 = true →
  _tokenize_message (ws1 +:+ verb +:+ ws2 +:+ tok +:+ ws3)
  = Ok {[ "shortcut" := tok ]}.
Proof.
  intros H1 Hv H2 Ht H3. unfold _tokenize_message.
  by rewrite split_two_tokens.
Qed.

Lemma tokenize_single_token_witness :
  _tokenize_message ("  " +:+ "/get" +:+ " " +:+ "date:x:period:" +:+ " ")
  = Ok {[ "shortcut" := "date:x:period:" ]}.
Proof.
  apply (tokenize_single_token "  " "/get" " " "date:x:period:" " ");
    repeat split; (reflexivity || discriminate).
Defined.

(** A message that starts with a verb: the verb is dropped and the rest is
    cut into the shortcut and the remainder. *)
Lemma split_after_verb (verb rest : string) :
  word verb → ends_word rest →
  PyStr.split 2 (verb +:+ rest) = verb :: PyStr.split 1 rest.
Proof. intros Hv Hr. by apply (split_cons 1 EmptyString verb rest). Qed.

Lemma split_verb_only (verb : string) :
  word verb → PyStr.split 2 verb = [verb].
Proof.
  intros Hv. rewrite <- (append_empty_r verb) at 1.
  by rewrite split_after_verb.
Qed.

(** C1, as the code has it: the message still carries its verb. For every
    verb, [verb abc] yields the shortcut alone, [verb abc buy milk period:2]
    yields shortcut, text and period, and a message that is empty or holds
    the verb alone raises [ValueError]. *)
Theorem tokenize_examples_with_verb (verb : string) :
  word verb →
  _tokenize_message (verb +:+ " abc") = Ok {[ "shortcut" := "abc" ]}
  ∧ _tokenize_message (verb +:+ " abc buy milk period:2")
    = Ok (<["period" := "2"]> (<["text" := "buy milk"]>
            {[ "shortcut" := "abc" ]}))
  ∧ _tokenize_message verb = Err ValueError
  ∧ _tokenize_message "" = Err ValueError.
Proof.
  intros Hv. unfold _tokenize_message. split; [|split; [|split]].
  - by rewrite split_after_verb.
  - rewrite split_after_verb by done. vm_compute. reflexivity.
  - by rewrite split_verb_only.
  - reflexivity.
Qed.

Lemma tokenize_examples_with_verb_witness :
  _tokenize_message ("/add" +:+ " abc") = Ok {[ "shortcut" := "abc" ]}.
Proof.
  apply (tokenize_examples_with_verb "/add"). split; [discriminate|reflexivity].
Defined.

(** C1, as stated: on input without the verb the first token is taken for
    the verb, so the first three examples come out differently. *)
Lemma tokenize_examples_without_verb :
  _tokenize_message "abc" = Err ValueError
  ∧ _tokenize_message "abc" ≠ Ok {[ "shortcut" := "abc" ]}
  ∧ _tokenize_message "abc buy milk period:2"
    = Ok (<["period" := "2"]> (<["text" := "milk"]> {[ "shortcut" := "buy" ]}))
  ∧ _tokenize_message "abc buy milk period:2"
    ≠ Ok (<["period" := "2"]> (<["text" := "buy milk"]>
            {[ "shortcut" := "abc" ]})).
Proof.
  assert (E1 : _tokenize_message "abc" = Err ValueError) by reflexivity.
  assert (E2 : _tokenize_message "abc buy milk period:2"
    = Ok (<["period" := "2"]> (<["text" := "milk"]> {[ "shortcut" := "buy" ]})))
    by (vm_compute; reflexivity).
  split; [done|]. split; [|split; [done|]].
  - rewrite E1. discriminate.
  - rewrite E2. intros H.
    pose proof (f_equal (fun r => match r with
                                  | Ok m => m !! "shortcut"
                                  | Err _ => None
                                  end) H) as H'.
    vm_compute in H'. discriminate.
Qed.

(** A segment without a leading text word cannot be unpacked: attributes
    with no text in front of them raise [ValueError]. *)
Lemma tokenize_attributes_without_text :
  _tokenize_message "/add abc period:2 date:2024-01-01" = Err ValueError
  ∧ _tokenize_message "abc period:2 date:2024-01-01" = Err ValueError.
Proof. split; reflexivity. Qed.

(** ** The field resolver *)

Section Resolver.

Variable now : datetime.
Variable parse_date : value → res value.
Variable Task : dict → res task.
Variable py_str : value → string.
Variable py_repr : task → string.

(** The handler around the call of the parser: whatever the parser
    raises, the resolver raises [ValueError]. *)
Lemma parse_task_unparseable (fuel : nat) (d : db) (user : string)
    (t : dict) (v : value) (e : exn) :
  t !! "date" = Some v → parse_date v = Err e →
  _parse_task now parse_date fuel d user t = Some (Err ValueError).
Proof. intros Ht Hp. unfold _parse_task. by rewrite Ht, Hp. Qed.

(** C6, as the code has it: an absent period resolves to 4; a present
    one resolves to what [int] makes of it, whatever its sign. *)
Theorem resolved_period (fuel : nat) (d : db) (user : string)
    (t t' : dict) :
  _parse_task now parse_date fuel d user t = Some (Ok t') →
  (t !! "period" = None → t' !! "period" = Some (VInt 4))
  ∧ (∀ v, t !! "period" = Some v →
       ∃ z, py_int v = Ok z ∧ t' !! "period" = Some (VInt z)).
Proof.
  unfold _parse_task. intros H.
  set (r := match t !! "date" with
            | Some v => _
            | None => _
            end) in H.
  assert (Hr : ∀ t1, r = Some (Ok t1) → t1 !! "period" = t !! "period").
  { intros t1. subst r. destruct (t !! "date") as [v|].
    - destruct (parse_date v); intros [= <-]. by rewrite lookup_insert_ne.
    - destruct (_determine_suitable_date now fuel d user) as [[dt|]|];
        simpl; intros [= <-]. by rewrite lookup_insert_ne. }
  destruct r as [[t1|]|]; simpl in H; try discriminate.
  specialize (Hr t1 eq_refl). rewrite Hr in H.
  destruct (t !! "period") as [v|].
  - split; [done|]. intros v' [= <-].
    destruct (py_int v) as [z|]; simpl in H; [|discriminate].
    injection H as <-. exists z. by rewrite lookup_insert_eq.
  - split; [|done]. intros _. injection H as <-.
    by rewrite lookup_insert_eq.
Qed.

End Resolver.

(** C5 at [/add abc buy milk date:someday]: the [except] clause around
    the call of the parser is never entered with a parser that answers
    [None] to a text it cannot read, as [dateparser.parse] does. The
    resolver raises nothing and returns the mapping with [None] for its
    date; [add], here with a constructor of [Task] that keeps the mapping
    it is given, stores the task, which was not there before, and replies
    as for any other message. *)
Theorem unreadable_date_is_stored :
  (tokens ← _tokenize_message "/add abc buy milk date:someday";
   Ok (tokens !! "date")) = Ok (Some "someday")
  ∧ field_of (parse_message (mkDatetime 738886 0) none_parser 1 bob_only "bob"
              "/add abc buy milk date:someday") "date" = Some VNone
  ∧ outcome (add (mkDatetime 738886 0) none_parser (fun t => Ok t) str_of 1
               "bob" "/add abc buy milk date:someday" bob_only)
    = Some (Ok (VStr "Added task abc"))
  ∧ stored bob_only "bob" "abc" = None
  ∧ field_after (add (mkDatetime 738886 0) none_parser (fun t => Ok t) str_of
                   1 "bob" "/add abc buy milk date:someday" bob_only)
      "bob" "abc" "date" = Some VNone.
Proof.
  split; [reflexivity|]. split; [reflexivity|]. split; [reflexivity|].
  split; reflexivity.
Qed.

Lemma resolved_period_witness :
  let t' := <["period" := VInt 4]>
              (<["date" := VDatetime (mkDatetime 738886 0)]>
                 ({[ "shortcut" := VStr "abc" ]} : dict)) in
  _parse_task (mkDatetime 738886 0) no_parser 1 ∅ "bob"
    {[ "shortcut" := VStr "abc" ]} = Some (Ok t')
  ∧ t' !! "period" = Some (VInt 4).
Proof.
  intros t'.
  assert (H : _parse_task (mkDatetime 738886 0) no_parser 1 ∅ "bob"
                {[ "shortcut" := VStr "abc" ]} = Some (Ok t'))
    by (vm_compute; reflexivity).
  split; [exact H|].
  exact (proj1 (resolved_period (mkDatetime 738886 0) no_parser 1 ∅ "bob"
                  {[ "shortcut" := VStr "abc" ]} t' H) eq_refl).
Defined.

(** C6, as stated: a period of zero or below zero is resolved as it is. *)
Lemma resolved_period_not_positive :
  field_of (parse_message (mkDatetime 738886 0) no_parser 1 ∅ "bob"
              "/add abc buy milk period:0") "period" = Some (VInt 0)
  ∧ field_of (parse_message (mkDatetime 738886 0) no_parser 1 ∅ "bob"
                "/add abc buy milk period:-3") "period" = Some (VInt (-3))
  ∧ ¬ (0 < 0)%Z ∧ ¬ (0 < -3)%Z.
Proof.
  split; [vm_compute; reflexivity|]. split; [vm_compute; reflexivity|]. lia.
Qed.

(** ** The suitable-date search *)

Lemma counted_Counter (days : list Z) (x : Z) :
  counted (Counter days) x = on_day x days.
Proof.
  unfold counted, on_day. induction days as [|a days IH]; [done|].
  change (Counter (a :: days))
    with (<[a := S (default 0%nat (Counter days !! a))]> (Counter days)).
  rewrite filter_cons. destruct (decide (a = x)) as [->|Hne].
  - rewrite lookup_insert_eq. simpl. by rewrite IH.
  - by rewrite lookup_insert_ne.
Qed.

Lemma from_day_succ (x : Z) (days : list Z) :
  from_day x days = (on_day x days + from_day (x + 1) days)%nat.
Proof.
  unfold from_day, on_day. induction days as [|a days IH]; [done|].
  rewrite !filter_cons.
  destruct (decide (x ≤ a)%Z), (decide (a = x)), (decide (x + 1 ≤ a)%Z);
    simpl; lia.
Qed.

(** Some day at or after [x] holds fewer tasks than the limit, and the
    first such day is at most [from_day x days] days away. *)
Lemma first_free_day (days : list Z) (n : nat) :
  ∀ x : Z, (from_day x days ≤ n)%nat →
    ∃ k : nat, (k ≤ n)%nat
      ∧ (on_day (x + Z.of_nat k) days < TASK_PER_DAY_LIMIT)%nat
      ∧ ∀ j : nat, (j < k)%nat →
          (TASK_PER_DAY_LIMIT ≤ on_day (x + Z.of_nat j) days)%nat.
Proof.
  unfold TASK_PER_DAY_LIMIT.
  induction n as [|n IH]; intros x Hx; rewrite from_day_succ in Hx.
  - exists 0%nat. rewrite Z.add_0_r. split; [lia|]. split; [lia|]. lia.
  - destruct (decide (on_day x days < 3)%nat) as [Hlt|Hge].
    + exists 0%nat. rewrite Z.add_0_r. split; [lia|]. split; [lia|]. lia.
    + destruct (IH (x + 1)%Z) as (k & Hk & Hfree & Hfull); [lia|].
      exists (S k). split; [lia|]. split.
      * by replace (x + Z.of_nat (S k))%Z with (x + 1 + Z.of_nat k)%Z by lia.
      * intros [|j] Hj.
        -- rewrite Z.add_0_r. lia.
        -- replace (x + Z.of_nat (S j))%Z with (x + 1 + Z.of_nat j)%Z by lia.
           apply Hfull. lia.
Qed.

Lemma add_days_add_days (dt : datetime) (a b : Z) :
  add_days (add_days dt a) b = add_days dt (a + b).
Proof. unfold add_days. simpl. f_equal. lia. Qed.

Lemma add_days_0 (dt : datetime) : add_days dt 0 = dt.
Proof. destruct dt. unfold add_days. simpl. f_equal. lia. Qed.

Lemma find_date_succ (fuel : nat) (c : gmap Z nat) (dt : datetime) :
  find_date (S fuel) c dt
  = if (TASK_PER_DAY_LIMIT <=? counted c (to_date dt))%nat
    then find_date fuel c (add_days dt 1)
    else Some (Ok dt).
Proof. reflexivity. Qed.

(** The loop stops on the first day that holds fewer tasks than the
    limit. *)
Lemma find_date_first_free (days : list Z) (k : nat) :
  ∀ (fuel : nat) (dt : datetime),
    (k < fuel)%nat →
    (on_day (to_date dt + Z.of_nat k) days < TASK_PER_DAY_LIMIT)%nat →
    (∀ j : nat, (j < k)%nat →
       (TASK_PER_DAY_LIMIT ≤ on_day (to_date dt + Z.of_nat j) days)%nat) →
    find_date fuel (Counter days) dt = Some (Ok (add_days dt (Z.of_nat k))).
Proof.
  induction k as [|k IH]; intros [|fuel] dt Hfuel Hfree Hfull; try lia;
    rewrite find_date_succ, counted_Counter.
  - rewrite Z.add_0_r in Hfree.
    destruct (Nat.leb_spec TASK_PER_DAY_LIMIT (on_day (to_date dt) days));
      [lia|]. change (Z.of_nat 0) with 0%Z. by rewrite add_days_0.
  - assert (Hlt : (0 < S k)%nat) by lia.
    pose proof (Hfull 0%nat Hlt) as H0. rewrite Z.add_0_r in H0.
    destruct (Nat.leb_spec TASK_PER_DAY_LIMIT (on_day (to_date dt) days));
      [|lia].
    rewrite (IH fuel (add_days dt 1)).
    + rewrite add_days_add_days. do 3 f_equal. lia.
    + lia.
    + unfold add_days, to_date in *. simpl.
      by replace (dt_day dt + 1 + Z.of_nat k)%Z
        with (dt_day dt + Z.of_nat (S k))%Z by lia.
    + intros j Hj. unfold add_days, to_date in *. simpl.
      replace (dt_day dt + 1 + Z.of_nat j)%Z
        with (dt_day dt + Z.of_nat (S j))%Z by lia.
      apply Hfull. lia.
Qed.

(** C7: when the dates of the user's tasks are [days], the search answers
    [now] moved forward by [k] days, where day [k] is the first one, counted
    from today, that holds fewer than three of the user's tasks; any fuel
    above [k] suffices and [k] is at most the number of tasks. In
    particular, three tasks today and none tomorrow give tomorrow. *)
Theorem suitable_date_is_first_free_day (now : datetime) (d : db)
    (user : string) (days : list Z) :
  task_days (Repo.get_users_tasks d user) = Ok days →
  ∃ k : nat,
    (k ≤ length days)%nat
    ∧ (∀ fuel : nat, (k < fuel)%nat →
         _determine_suitable_date now fuel d user
         = Some (Ok (add_days now (Z.of_nat k))))
    ∧ (on_day (to_date now + Z.of_nat k) days < TASK_PER_DAY_LIMIT)%nat
    ∧ (∀ j : nat, (j < k)%nat →
         (TASK_PER_DAY_LIMIT ≤ on_day (to_date now + Z.of_nat j) days)%nat)
    ∧ (on_day (to_date now) days = 3%nat →
       on_day (to_date now + 1) days = 0%nat → k = 1%nat).
Proof.
  intros Hdays.
  destruct (first_free_day days (length days) (to_date now))
    as (k & Hk & Hfree & Hfull).
  { unfold from_day. apply length_filter. }
  exists k. split; [done|]. split; [|split; [done|split; [done|]]].
  - intros fuel Hfuel. unfold _determine_suitable_date. rewrite Hdays. simpl.
    by apply find_date_first_free.
  - intros H3 H0. unfold TASK_PER_DAY_LIMIT in *.
    destruct k as [|[|k]]; [|done|].
    + rewrite Z.add_0_r in Hfree. lia.
    + assert (Hlt : (1 < S (S k))%nat) by lia.
      specialize (Hfull 1%nat Hlt). change (Z.of_nat 1) with 1%Z in Hfull.
      lia.
Qed.

Lemma suitable_date_is_first_free_day_witness :
  _determine_suitable_date (mkDatetime 738886 0) 2 three_today "bob"
  = Some (Ok (mkDatetime 738887 0)).
Proof.
  destruct (suitable_date_is_first_free_day (mkDatetime 738886 0) three_today
              "bob" [738886; 738886; 738886]%Z)
    as (k & _ & Hrun & _ & _ & Hone); [vm_compute; reflexivity|].
  rewrite (Hone eq_refl eq_refl) in Hrun.
  exact (Hrun 2%nat (le_n 2)).
Defined.

(** ** Catching up one task *)

Section CatchUp.

Variable now : datetime.

Lemma catch_up_succ (fuel : nat) (t : task) :
  catch_up now (S fuel) t
  = (b ← lift (overdue now t);
     if b : bool then t' ← lift (catch_up_step now t); catch_up now fuel t'
     else Some (Ok t)).
Proof. reflexivity. Qed.

Lemma overdue_dated (t : task) (D : datetime) :
  t !! "date" = Some (VDatetime D) →
  overdue now t = Ok (to_date D <? to_date now)%Z.
Proof. intros Hd. unfold overdue, getattr. by rewrite Hd. Qed.

Lemma step_by_period (t : task) (D : datetime) (rs : value) (P : Z) :
  t !! "date" = Some (VDatetime D) → t !! "reschedule" = Some rs →
  truthy rs = false → t !! "period" = Some (VInt P) →
  catch_up_step now t = Ok (<["date" := VDatetime (add_days D P)]> t).
Proof.
  intros Hd Hr Hf Hp. unfold catch_up_step, getattr.
  rewrite Hr. simpl. rewrite Hf, Hd. simpl. by rewrite Hp.
Qed.

Lemma step_to_today (t : task) (rs : value) :
  t !! "reschedule" = Some rs → truthy rs = true →
  catch_up_step now t = Ok (<["date" := VDatetime now]> t).
Proof.
  intros Hr Ht. unfold catch_up_step, getattr. rewrite Hr. simpl.
  by rewrite Ht.
Qed.

(** A task that is not overdue is left alone. *)
Lemma catch_up_current (fuel : nat) (t : task) (D : datetime) :
  t !! "date" = Some (VDatetime D) → (to_date now ≤ to_date D)%Z →
  catch_up now (S fuel) t = Some (Ok t).
Proof.
  intros Hd Hle. rewrite catch_up_succ, (overdue_dated t D Hd). simpl.
  by destruct (Z.ltb_spec (to_date D) (to_date now)); [lia|].
Qed.

(** Whenever the loop returns a task, that task is not overdue. *)
Lemma catch_up_result_current (fuel : nat) :
  ∀ t t' : task, catch_up now fuel t = Some (Ok t') → current now t'.
Proof.
  induction fuel as [|fuel IH]; intros t t' H; [discriminate|].
  rewrite catch_up_succ in H. unfold overdue, getattr in H.
  destruct (t !! "date") as [[| | | |D|]|] eqn:Hd; simpl in H;
    try discriminate.
  destruct (Z.ltb_spec (to_date D) (to_date now)).
  - destruct (catch_up_step now t) as [t1|]; simpl in H; [|discriminate].
    by apply (IH t1).
  - injection H as <-. exists D. split; [done|lia].
Qed.

(** A task that walks by its period: after [n] additions, when the first
    [n] dates are overdue and the next one is not. *)
Lemma catch_up_periods (rs : value) (P : Z) (n : nat) :
  truthy rs = false →
  ∀ (fuel : nat) (t : task) (D : datetime),
    t !! "date" = Some (VDatetime D) → t !! "reschedule" = Some rs →
    t !! "period" = Some (VInt P) →
    (∀ i : nat, (i < n)%nat →
     (to_date D + Z.of_nat i * P < to_date now)%Z) →
    (to_date now ≤ to_date D + Z.of_nat n * P)%Z →
    (n < fuel)%nat →
    catch_up now fuel t
    = Some (Ok (<["date" := VDatetime (add_days D (Z.of_nat n * P))]> t)).
Proof.
  intros Hf. induction n as [|n IH];
    intros [|fuel] t D Hd Hr Hp Hbefore Hafter Hfuel; try lia.
  - rewrite (catch_up_current fuel t D Hd) by lia.
    change (Z.of_nat 0 * P)%Z with 0%Z. rewrite add_days_0.
    by rewrite insert_id.
  - assert (H0 : (0 < S n)%nat) by lia. specialize (Hbefore 0%nat H0) as Hod.
    rewrite catch_up_succ, (overdue_dated t D Hd). simpl.
    destruct (Z.ltb_spec (to_date D) (to_date now)); [|lia].
    rewrite (step_by_period t D rs P Hd Hr Hf Hp). simpl.
    rewrite (IH fuel _ (add_days D P)).
    + rewrite insert_insert_eq, add_days_add_days.
      by replace (P + Z.of_nat n * P)%Z with (Z.of_nat (S n) * P)%Z by lia.
    + by rewrite lookup_insert_eq.
    + by rewrite lookup_insert_ne.
    + by rewrite lookup_insert_ne.
    + intros i Hi. assert (Hi' : (S i < S n)%nat) by lia.
      specialize (Hbefore (S i) Hi'). unfold add_days, to_date in *.
      simpl. lia.
    + unfold add_days, to_date in *. simpl. lia.
    + lia.
Qed.

(** C2, as the code has it: a task that walks by its period ends on
    [D + k*P] when today is that very day, and on [D + (k+1)*P] when today
    lies [r > 0] days past it: the first date of the walk that is not
    before today. *)
Theorem catch_up_whole_periods (t : task) (D : datetime) (P k r : Z) :
  t !! "date" = Some (VDatetime D) →
  t !! "reschedule" = Some (VBool false) →
  t !! "period" = Some (VInt P) →
  (1 ≤ k)%Z → (0 ≤ r < P)%Z →
  to_date now = (to_date D + k * P + r)%Z →
  ∀ fuel : nat, (Z.to_nat k + 1 < fuel)%nat →
    catch_up now fuel t
    = Some (Ok (<["date" :=
                    VDatetime
                    (add_days D ((if (r =? 0)%Z then k else k + 1) * P))]>
                t)).
Proof.
  intros Hd Hr Hp Hk Hrange Hnow fuel Hfuel.
  set (n := Z.to_nat (if (r =? 0)%Z then k else k + 1)).
  replace ((if (r =? 0)%Z then k else k + 1) * P)%Z with (Z.of_nat n * P)%Z
    by (subst n; destruct (r =? 0)%Z; lia).
  apply (catch_up_periods (VBool false) P n); try done.
  - intros i Hi. rewrite Hnow. subst n.
    destruct (Z.eqb_spec r 0); nia.
  - rewrite Hnow. subst n. destruct (Z.eqb_spec r 0); nia.
  - subst n. destruct (r =? 0)%Z; lia.
Qed.

End CatchUp.

Lemma catch_up_whole_periods_witness :
  catch_up (mkDatetime 738889 0) 5 (walking 738886 2)
  = Some (Ok (<["date" := VDatetime (mkDatetime 738890 32400)]>
                (walking 738886 2))).
Proof.
  apply (catch_up_whole_periods (mkDatetime 738889 0) (walking 738886 2)
           (mkDatetime 738886 32400) 2 1 1);
    (reflexivity || lia || (simpl; lia)).
Defined.

(** C2, as stated: with [D] = day 738886, [P = 2], [k = 1] and [r = 1], the
    task does not stop on [D + k*P] = 738888, which is before today, but on
    738890. *)
Lemma catch_up_passes_k_periods :
  field_of (catch_up (mkDatetime (738886 + 1 * 2 + 1) 0) 5 (walking 738886 2))
    "date" = Some (VDatetime (mkDatetime 738890 32400))
  ∧ field_of (catch_up (mkDatetime (738886 + 1 * 2 + 1) 0) 5
                (walking 738886 2)) "date"
    ≠ Some (VDatetime (add_days (mkDatetime 738886 32400) (1 * 2))).
Proof.
  assert (E : field_of (catch_up (mkDatetime (738886 + 1 * 2 + 1) 0) 5
                          (walking 738886 2)) "date"
              = Some (VDatetime (mkDatetime 738890 32400)))
    by (vm_compute; reflexivity).
  split; [done|]. rewrite E. vm_compute. discriminate.
Qed.

(** ** Catching up within the ranges *)

Section RangedCatchUp.

Variable now : datetime.

Lemma ranged_catch_up_succ (fuel : nat) (t : task) :
  Ranged.catch_up now (S fuel) t
  = (b ← lift (overdue now t);
     if b : bool
     then t' ← lift (Ranged.catch_up_step now t); Ranged.catch_up now fuel t'
     else Some (Ok t)).
Proof. reflexivity. Qed.

(** A pass that the checks let through is the pass on unbounded day
    numbers, and so is a loop that returns. *)
Lemma ranged_step_refines (t t1 : task) :
  Ranged.catch_up_step now t = Ok t1 → catch_up_step now t = Ok t1.
Proof.
  unfold Ranged.catch_up_step, catch_up_step, getattr. intros H.
  destruct (t !! "reschedule") as [rs|]; simpl in *; [|discriminate].
  destruct (truthy rs); [done|].
  destruct (t !! "date") as [dv|]; simpl in *; [|discriminate].
  destruct (as_datetime dv) as [D|]; simpl in *; [|discriminate].
  destruct (t !! "period") as [pv|]; simpl in *; [|discriminate].
  unfold Ranged.timedelta in H.
  destruct (as_days pv) as [P|]; simpl in *; [|discriminate].
  destruct (Z.abs P <=? Ranged.MAX_DELTA_DAYS)%Z; simpl in H; [|discriminate].
  unfold Ranged.datetime_add in H.
  destruct ((Ranged.MIN_DAY <=? dt_day D + P)
            && (dt_day D + P <=? Ranged.MAX_DAY))%Z; simpl in H;
    [done|discriminate].
Qed.




Lemma ranged_step_by_period (t : task) (D : datetime) (rs : value) (P : Z) :
  t !! "date" = Some (VDatetime D) → t !! "reschedule" = Some rs →
  truthy rs = false → t !! "period" = Some (VInt P) →
  (Z.abs P ≤ Ranged.MAX_DELTA_DAYS)%Z →
  (Ranged.MIN_DAY ≤ to_date D + P ≤ Ranged.MAX_DAY)%Z →
  Ranged.catch_up_step now t = Ok (<["date" := VDatetime (add_days D P)]> t).
Proof.
  intros Hd Hr Hf Hp Hdelta Hday.
  unfold Ranged.catch_up_step, getattr. rewrite Hr. simpl.
  rewrite Hf, Hd. simpl. rewrite Hp. simpl.
  unfold Ranged.timedelta. simpl.
  destruct (Z.leb_spec (Z.abs P) Ranged.MAX_DELTA_DAYS); [|lia]. simpl.
  unfold Ranged.datetime_add, to_date in *.
  destruct (Z.leb_spec Ranged.MIN_DAY (dt_day D + P)); [|lia].
  destruct (Z.leb_spec (dt_day D + P) Ranged.MAX_DAY); [|lia]. done.
Qed.

Lemma ranged_step_overflow (t : task) (D : datetime) (rs : value) (P : Z) :
  t !! "date" = Some (VDatetime D) → t !! "reschedule" = Some rs →
  truthy rs = false → t !! "period" = Some (VInt P) →
  ¬ ((Z.abs P ≤ Ranged.MAX_DELTA_DAYS)%Z
     ∧ (Ranged.MIN_DAY ≤ to_date D + P ≤ Ranged.MAX_DAY)%Z) →
  Ranged.catch_up_step now t = Err OverflowError.
Proof.
  intros Hd Hr Hf Hp Hout.
  unfold Ranged.catch_up_step, getattr. rewrite Hr. simpl.
  rewrite Hf, Hd. simpl. rewrite Hp. simpl.
  unfold Ranged.timedelta. simpl.
  destruct (Z.leb_spec (Z.abs P) Ranged.MAX_DELTA_DAYS); [|done]. simpl.
  unfold Ranged.datetime_add, to_date in *.
  destruct (Z.leb_spec Ranged.MIN_DAY (dt_day D + P)); [|done].
  destruct (Z.leb_spec (dt_day D + P) Ranged.MAX_DAY); [|done]. lia.
Qed.

Lemma ranged_step_to_today (t : task) (rs : value) :
  t !! "reschedule" = Some rs → truthy rs = true →
  Ranged.catch_up_step now t = Ok (<["date" := VDatetime now]> t).
Proof.
  intros Hr Ht. unfold Ranged.catch_up_step, getattr. rewrite Hr. simpl.
  by rewrite Ht.
Qed.

Lemma ranged_current (fuel : nat) (t : task) (D : datetime) :
  t !! "date" = Some (VDatetime D) → (to_date now ≤ to_date D)%Z →
  Ranged.catch_up now (S fuel) t = Some (Ok t).
Proof.
  intros Hd Hle. rewrite ranged_catch_up_succ, (overdue_dated now t D Hd).
  simpl. by destruct (Z.ltb_spec (to_date D) (to_date now)); [lia|].
Qed.

Lemma ranged_overdue (fuel : nat) (t : task) (D : datetime) :
  t !! "date" = Some (VDatetime D) → (to_date D < to_date now)%Z →
  Ranged.catch_up now (S fuel) t
  = (t' ← lift (Ranged.catch_up_step now t); Ranged.catch_up now fuel t').
Proof.
  intros Hd Hlt. rewrite ranged_catch_up_succ, (overdue_dated now t D Hd).
  simpl. by destruct (Z.ltb_spec (to_date D) (to_date now)); [|lia].
Qed.

(** With a positive period the loop ends, one way or the other, with any
    fuel above the number of days the task is behind. *)
Lemma ranged_ends (rs : value) (P : Z) :
  (0 < P)%Z →
  ∀ (g : nat) (t : task) (D : datetime),
    t !! "date" = Some (VDatetime D) → t !! "reschedule" = Some rs →
    t !! "period" = Some (VInt P) →
    (to_date now - to_date D ≤ Z.of_nat g)%Z →
    ∀ fuel : nat, (g < fuel)%nat →
      (∃ t' : task, Ranged.catch_up now fuel t = Some (Ok t') ∧ current now t')
      ∨ Ranged.catch_up now fuel t = Some (Err OverflowError).
Proof.
  intros HP. induction g as [|g IH]; intros t D Hd Hr Hp Hg [|fuel] Hfuel;
    try lia.
  - left. exists t. rewrite (ranged_current fuel t D Hd) by lia.
    split; [done|]. exists D. split; [done|lia].
  - destruct (decide (to_date now ≤ to_date D)%Z) as [Hle|Hgt].
    { left. exists t. rewrite (ranged_current fuel t D Hd Hle).
      split; [done|]. by exists D. }
    rewrite (ranged_overdue fuel t D Hd) by lia.
    destruct (truthy rs) eqn:Hrs.
    + rewrite (ranged_step_to_today t rs Hr Hrs). simpl.
      destruct fuel as [|fuel]; [lia|]. left.
      exists (<["date" := VDatetime now]> t).
      rewrite (ranged_current fuel _ now); [|by rewrite lookup_insert_eq|lia].
      split; [done|]. exists now. by rewrite lookup_insert_eq.
    + destruct (decide ((Z.abs P ≤ Ranged.MAX_DELTA_DAYS)%Z
                        ∧ (Ranged.MIN_DAY ≤ to_date D + P
                           ≤ Ranged.MAX_DAY)%Z)) as [[Hdelta Hday]|Hout].
      * rewrite (ranged_step_by_period t D rs P Hd Hr Hrs Hp Hdelta Hday).
        simpl. apply (IH _ (add_days D P)).
        -- by rewrite lookup_insert_eq.
        -- by rewrite lookup_insert_ne.
        -- by rewrite lookup_insert_ne.
        -- unfold add_days, to_date in *. simpl. lia.
        -- lia.
      * rewrite (ranged_step_overflow t D rs P Hd Hr Hrs Hp Hout). by right.
Qed.

(** Within the ranges the loop returns: only the date has changed, to a
    day that is not before today. *)
Lemma ranged_total (rs : value) (P : Z) :
  (0 < P ≤ Ranged.MAX_DELTA_DAYS)%Z →
  (to_date now + P - 1 ≤ Ranged.MAX_DAY)%Z →
  ∀ (g : nat) (t : task) (D : datetime),
    t !! "date" = Some (VDatetime D) → t !! "reschedule" = Some rs →
    t !! "period" = Some (VInt P) →
    (Ranged.MIN_DAY ≤ to_date D)%Z →
    (to_date now - to_date D ≤ Z.of_nat g)%Z →
    ∃ D' : datetime,
      (to_date now ≤ to_date D')%Z
      ∧ ∀ fuel : nat, (g < fuel)%nat →
          Ranged.catch_up now fuel t
          = Some (Ok (<["date" := VDatetime D']> t)).
Proof.
  intros HP Hmax.
  assert (Hstay : ∀ (t : task) (D : datetime),
            t !! "date" = Some (VDatetime D) → (to_date now ≤ to_date D)%Z →
            ∀ g : nat,
            ∃ D' : datetime,
              (to_date now ≤ to_date D')%Z
              ∧ ∀ fuel : nat, (g < fuel)%nat →
                  Ranged.catch_up now fuel t
                  = Some (Ok (<["date" := VDatetime D']> t))).
  { intros t D Hd Hle g. exists D. split; [done|].
    intros [|fuel] Hfuel; [lia|].
    rewrite (ranged_current fuel t D Hd Hle). by rewrite insert_id. }
  induction g as [|g IH]; intros t D Hd Hr Hp Hmin Hg.
  - apply (Hstay t D Hd). lia.
  - destruct (decide (to_date now ≤ to_date D)%Z) as [Hle|Hgt];
      [by apply (Hstay t D Hd)|].
    destruct (truthy rs) eqn:Hrs.
    + exists now. split; [lia|]. intros [|[|fuel]] Hfuel; try lia.
      rewrite (ranged_overdue _ t D Hd) by lia.
      rewrite (ranged_step_to_today t rs Hr Hrs). simpl.
      apply (ranged_current fuel _ now); [|lia].
      by rewrite lookup_insert_eq.
    + destruct (IH (<["date" := VDatetime (add_days D P)]> t) (add_days D P))
        as (D' & HD' & Hrun).
      * by rewrite lookup_insert_eq.
      * by rewrite lookup_insert_ne.
      * by rewrite lookup_insert_ne.
      * unfold add_days, to_date in *. simpl. lia.
      * unfold add_days, to_date in *. simpl. lia.
      * exists D'. split; [done|]. intros [|fuel] Hfuel; [lia|].
        rewrite (ranged_overdue fuel t D Hd) by lia.
        rewrite (ranged_step_by_period t D rs P Hd Hr Hrs Hp).
        -- simpl. rewrite Hrun by lia. by rewrite insert_insert_eq.
        -- lia.
        -- unfold to_date in *. lia.
Qed.

(** C8, as the code has it: for a task with a positive period, a pass
    through the loop body that raises nothing moves an overdue date
    strictly forward, and the loop ends with any fuel above the number of
    days the task is behind: it returns a task whose calendar date is not
    before today's, or it raises [OverflowError]. It returns whenever the
    period is at most 999999999 days and the day [period - 1] days after
    today is one that [datetime] holds. *)
Theorem catch_up_ends (t : task) (D : datetime) (rs : value) (P : Z) :
  t !! "date" = Some (VDatetime D) → t !! "reschedule" = Some rs →
  t !! "period" = Some (VInt P) → (0 < P)%Z →
  ((to_date D < to_date now)%Z →
     ∀ t1 : task, Ranged.catch_up_step now t = Ok t1 →
       ∃ D1 : datetime,
         t1 !! "date" = Some (VDatetime D1) ∧ (to_date D < to_date D1)%Z)
  ∧ (∀ fuel : nat,
       (Z.to_nat (to_date now - to_date D) < fuel)%nat →
       (∃ t' : task,
          Ranged.catch_up now fuel t = Some (Ok t') ∧ current now t')
       ∨ Ranged.catch_up now fuel t = Some (Err OverflowError))
  ∧ ((P ≤ Ranged.MAX_DELTA_DAYS)%Z → (Ranged.MIN_DAY ≤ to_date D)%Z →
     (to_date now + P - 1 ≤ Ranged.MAX_DAY)%Z →
     ∃ (t' : task) (D' : datetime),
       (∀ fuel : nat,
          (Z.to_nat (to_date now - to_date D) < fuel)%nat →
          Ranged.catch_up now fuel t = Some (Ok t'))
       ∧ t' !! "date" = Some (VDatetime D')
       ∧ (to_date now ≤ to_date D')%Z).
Proof.
  intros Hd Hr Hp HP. split; [|split].
  - intros Hod t1 Hstep. apply ranged_step_refines in Hstep.
    destruct (truthy rs) eqn:Hrs.
    + rewrite (step_to_today now t rs Hr Hrs) in Hstep. injection Hstep as <-.
      exists now. by rewrite lookup_insert_eq.
    + rewrite (step_by_period now t D rs P Hd Hr Hrs Hp) in Hstep.
      injection Hstep as <-. exists (add_days D P).
      rewrite lookup_insert_eq. split; [done|].
      unfold add_days, to_date. simpl. lia.
  - intros fuel Hfuel.
    apply (ranged_ends rs P HP (Z.to_nat (to_date now - to_date D)) t D);
      try done. lia.
  - intros Hdelta Hmin Hmax.
    destruct (ranged_total rs P (conj HP Hdelta) Hmax
                (Z.to_nat (to_date now - to_date D)) t D Hd Hr Hp Hmin)
      as (D' & HD' & Hrun); [lia|].
    exists (<["date" := VDatetime D']> t), D'.
    by rewrite lookup_insert_eq.
Qed.

End RangedCatchUp.

Lemma catch_up_ends_witness :
  ∃ (t' : task) (D' : datetime),
    (∀ fuel : nat,
       (Z.to_nat (738889 - 738886) < fuel)%nat →
       Ranged.catch_up (mkDatetime 738889 0) fuel (walking 738886 2)
       = Some (Ok t'))
    ∧ t' !! "date" = Some (VDatetime D')
    ∧ (738889 ≤ to_date D')%Z.
Proof.
  refine (proj2 (proj2 (catch_up_ends (mkDatetime 738889 0)
                          (walking 738886 2) (mkDatetime 738886 32400)
                          (VBool false) 2 _ _ _ _)) _ _ _);
    (reflexivity || (vm_compute; lia) || (vm_compute; discriminate)).
Defined.

(** C8, as stated: a task that was due on day 738886, 2024-01-01, with the
    positive period 10000000000 is overdue on day 738889. The loop on it
    ends, but with [OverflowError] in its first pass: the date has not
    moved and is still before today. *)
Lemma catch_up_overflows :
  (0 < 10000000000)%Z
  ∧ overdue (mkDatetime 738889 0) (walking 738886 10000000000) = Ok true
  ∧ Ranged.catch_up_step (mkDatetime 738889 0) (walking 738886 10000000000)
    = Err OverflowError
  ∧ Ranged.catch_up (mkDatetime 738889 0) 5 (walking 738886 10000000000)
    = Some (Err OverflowError).
Proof. split; [lia|]. split; [|split]; reflexivity. Qed.

(** ** The sweep over the repository *)

Lemma elem_of_entries (d : db) (u s : string) (t : task) :
  (u, (s, t)) ∈ entries d ↔ stored d u s = Some t.
Proof.
  unfold entries, stored. rewrite list_elem_of_bind. split.
  - intros ([u' m] & Hin & Hum). simpl in Hin.
    apply list_elem_of_fmap in Hin as ([s' t'] & Heq & Hst).
    injection Heq as -> -> ->.
    apply elem_of_map_to_list in Hum. apply elem_of_map_to_list in Hst.
    by rewrite Hum.
  - destruct (d !! u) as [m|] eqn:E; simpl; [|done].
    intros Hs. exists (u, m). split.
    + simpl. apply list_elem_of_fmap. exists (s, t). split; [done|].
      by apply elem_of_map_to_list.
    + by apply elem_of_map_to_list.
Qed.

Lemma not_elem_of_map_to_list_keys {A} (m : gmap string A) (s : string) :
  m !! s = None → s ∉ (map_to_list m).*1.
Proof.
  intros Hnone Hin. apply list_elem_of_fmap in Hin as ([s' a] & -> & Hin).
  apply elem_of_map_to_list in Hin. simpl in Hnone. congruence.
Qed.

Section Sweep.

Variable now : datetime.
Variable fuel : nat.

Lemma update_own_stored (d : db) (u s : string) (m : gmap string task)
    (t0 t' : task) :
  d !! u = Some m → m !! s = Some t0 →
  t' !! "user" = Some (VStr u) → t' !! "shortcut" = Some (VStr s) →
  update_own t' d = Some (Ok tt, <[u := <[s := t']> m]> d).
Proof.
  intros Hu Hs Htu Hts.
  unfold update_own, mbind, cmd_bind, raise_or, store, Repo.update_task,
    getattr.
  rewrite Htu. simpl. rewrite Hts. simpl. by rewrite Hu, Hs.
Qed.

Lemma actualize_each_cons (t : task) (rest : list task) (d : db) :
  actualize_each now fuel (t :: rest) d
  = match catch_up now fuel t with
    | Some (Ok t') =>
        match update_own t' d with
        | Some (Ok _, d') => actualize_each now fuel rest d'
        | Some (Err e, d') => Some (Err e, d')
        | None => None
        end
    | Some (Err e) => Some (Err e, d)
    | None => None
    end.
Proof.
  simpl. unfold mbind at 1, cmd_bind at 1, query.
  destruct (catch_up now fuel t) as [[t'|e]|]; reflexivity.
Qed.

(** The inner loop on the tasks [kts] of user [u], whose stored tasks are
    [m] when the loop starts. *)
Lemma actualize_each_spec (u : string) (kts : list (string * task)) :
  ∀ (m : gmap string task) (dcur : db),
    dcur !! u = Some m → NoDup kts.*1 →
    (∀ s t, (s, t) ∈ kts → m !! s = Some t ∧ ready now fuel u s t) →
    ∃ m' : gmap string task,
      actualize_each now fuel kts.*2 dcur = Some (Ok tt, <[u := m']> dcur)
      ∧ (∀ s t, (s, t) ∈ kts → m' !! s = Some (caught_up now fuel t))
      ∧ (∀ s, s ∉ kts.*1 → m' !! s = m !! s).
Proof.
  induction kts as [|[s t] rest IH]; intros m dcur Hu Hnd Hall.
  - exists m. split; [|split; [|done]].
    + simpl. by rewrite insert_id.
    + intros s t Hin. by apply elem_of_nil in Hin.
  - change (((s, t) :: rest).*1) with (s :: rest.*1) in Hnd.
    apply NoDup_cons in Hnd as [Hfresh Hnd].
    destruct (Hall s t) as (Hs & Hrun & Htu & Hts); [left|].
    change (((s, t) :: rest).*2) with (t :: rest.*2).
    rewrite actualize_each_cons, Hrun.
    rewrite (update_own_stored dcur u s m t (caught_up now fuel t) Hu Hs Htu Hts).
    destruct (IH (<[s := caught_up now fuel t]> m)
              (<[u := <[s := caught_up now fuel t]> m]> dcur))
      as (m' & Hrest & Hdone & Hother).
    + by rewrite lookup_insert_eq.
    + done.
    + intros s2 t2 Hin. destruct (Hall s2 t2) as [Hs2 Hr2]; [by right|].
      split; [|done]. rewrite lookup_insert_ne; [done|].
      intros ->. apply Hfresh. apply list_elem_of_fmap.
      by exists (s2, t2).
    + exists m'. rewrite Hrest, insert_insert_eq. split; [done|]. split.
      * intros s2 t2 [Heq|Hin]%elem_of_cons; [|by apply Hdone].
        injection Heq as -> ->.
        by rewrite (Hother s Hfresh), lookup_insert_eq.
      * intros s2 Hnot.
        change (((s, t) :: rest).*1) with (s :: rest.*1) in Hnot.
        apply not_elem_of_cons in Hnot as [Hne Hnot].
        rewrite (Hother s2 Hnot). by rewrite lookup_insert_ne.
Qed.

(** The inner loop on all the tasks of a user. *)
Lemma actualize_each_user (u : string) (m : gmap string task) (dcur : db) :
  dcur !! u = Some m → (∀ s t, m !! s = Some t → ready now fuel u s t) →
  actualize_each now fuel (Repo.get_users_tasks dcur u) dcur
  = Some (Ok tt, <[u := caught_up now fuel <$> m]> dcur).
Proof.
  intros Hu Hall. unfold Repo.get_users_tasks. rewrite Hu. simpl.
  destruct (actualize_each_spec u (map_to_list m) m dcur Hu)
    as (m' & Hrun & Hdone & Hother).
  { apply NoDup_fst_map_to_list. }
  { intros s t Hin%elem_of_map_to_list. auto. }
  rewrite Hrun. do 3 f_equal. apply map_eq. intros s. rewrite lookup_fmap.
  destruct (m !! s) as [t|] eqn:Hs; simpl.
  - apply Hdone. by apply elem_of_map_to_list.
  - rewrite Hother; [done|]. by apply not_elem_of_map_to_list_keys.
Qed.

Lemma actualize_users_cons (u : string) (rest : list string) (d : db) :
  actualize_users now fuel (u :: rest) d
  = match actualize_each now fuel (Repo.get_users_tasks d u) d with
    | Some (Ok _, d') => actualize_users now fuel rest d'
    | Some (Err e, d') => Some (Err e, d')
    | None => None
    end.
Proof. reflexivity. Qed.

(** The outer loop on the users [us] of the repository [d]. *)
Lemma actualize_users_spec (d : db) (us : list string) :
  (∀ u s t, stored d u s = Some t → ready now fuel u s t) →
  ∀ dcur : db,
    NoDup us →
    (∀ u, u ∈ us → is_Some (d !! u) ∧ dcur !! u = d !! u) →
    ∃ d2 : db,
      actualize_users now fuel us dcur = Some (Ok tt, d2)
      ∧ (∀ u, u ∈ us →
           d2 !! u = (fun m : gmap string task => caught_up now fuel <$> m) <$> d !! u)
      ∧ (∀ u, u ∉ us → d2 !! u = dcur !! u).
Proof.
  intros Hready. induction us as [|u rest IH]; intros dcur Hnd Hsame.
  - exists dcur. split; [done|]. split; [|done].
    intros u Hin. by apply elem_of_nil in Hin.
  - apply NoDup_cons in Hnd as [Hfresh Hnd].
    destruct (Hsame u) as [[m Hm] Hcur]; [left|]. rewrite Hm in Hcur.
    rewrite actualize_users_cons, (actualize_each_user u m dcur Hcur).
    2:{ intros s t Hs. apply Hready. unfold stored. by rewrite Hm. }
    destruct (IH (<[u := caught_up now fuel <$> m]> dcur) Hnd)
      as (d2 & Hrun & Hdone & Hother).
    { intros u2 Hin. destruct (Hsame u2) as [Hsome Heq]; [by right|].
      split; [done|]. rewrite lookup_insert_ne; [done|]. by intros ->. }
    exists d2. split; [done|]. split.
    + intros u2 [->|Hin]%elem_of_cons; [|by apply Hdone].
      by rewrite (Hother u Hfresh), lookup_insert_eq, Hm.
    + intros u2 [Hne Hnot]%not_elem_of_cons.
      rewrite (Hother u2 Hnot). by rewrite lookup_insert_ne.
Qed.

(** The sweep replaces every stored task by the task the loop leaves. *)
Lemma actualize_tasks_spec (d : db) :
  (∀ u s t, stored d u s = Some t → ready now fuel u s t) →
  _actualize_tasks now fuel d
  = Some (Ok tt, (fun m : gmap string task => caught_up now fuel <$> m) <$> d).
Proof.
  intros Hready. unfold _actualize_tasks, mbind, cmd_bind, query, lift.
  destruct (actualize_users_spec d (Repo.user_names d) Hready d)
    as (d2 & Hrun & Hdone & Hother).
  { apply NoDup_fst_map_to_list. }
  { intros u Hin. split; [|done]. unfold Repo.user_names in Hin.
    apply list_elem_of_fmap in Hin as ([u' m] & -> & Hin).
    apply elem_of_map_to_list in Hin. by exists m. }
  rewrite Hrun. do 3 f_equal. apply map_eq. intros u.
  rewrite lookup_fmap. destruct (d !! u) as [m|] eqn:Hu.
  - rewrite <- Hu. apply Hdone. unfold Repo.user_names.
    apply list_elem_of_fmap. exists (u, m). split; [done|].
    by apply elem_of_map_to_list.
  - rewrite Hother; [by rewrite Hu|].
    by apply not_elem_of_map_to_list_keys.
Qed.

End Sweep.


Lemma stored_fmap (f : task → task) (d : db) (u s : string) :
  stored ((fun m : gmap string task => f <$> m) <$> d) u s = f <$> stored d u s.
Proof.
  unfold stored. rewrite lookup_fmap. destruct (d !! u) as [m|]; simpl; [|done].
  by rewrite lookup_fmap.
Qed.

Lemma entries_ok (d : db) :
  forallb entry_ok (entries d) = true →
  well_kept d ∧ ∀ u s t, stored d u s = Some t → schedulable t.
Proof.
  intros Hall.
  assert (H : ∀ u s t, stored d u s = Some t → entry_ok (u, (s, t)) = true).
  { intros u s t Hs. apply (proj1 (forallb_forall _ _) Hall).
    by apply list_elem_of_In, elem_of_entries. }
  split.
  - intros u s t Hs. specialize (H u s t Hs). unfold entry_ok in H.
    repeat case_match; try discriminate.
    apply andb_true_iff in H as [[Hu Hsc]%andb_true_iff _].
    apply String.eqb_eq in Hu, Hsc. by subst.
  - intros u s t Hs. specialize (H u s t Hs). unfold entry_ok in H.
    repeat case_match; try discriminate.
    apply andb_true_iff in H as [_ HP]. apply Z.ltb_lt in HP.
    unfold schedulable. eauto 10.
Qed.

(** ** The sweep within the ranges *)

Section RangedSweep.

Variable now : datetime.
Variable fuel : nat.










End RangedSweep.






(** ** The handlers [update] and [complete] *)

Section Handlers.

Variable now : datetime.
Variable parse_date : value → res value.
Variable py_str : value → string.

(** What the resolver returns: the mapping it was given, with [date] and
    [period] written over it. *)
Lemma parse_task_inv (fuel : nat) (d : db) (user : string) (t t' : dict) :
  _parse_task now parse_date fuel d user t = Some (Ok t') →
  ∃ (dv : value) (pv : Z),
    t' = <["period" := VInt pv]> (<["date" := dv]> t)
    ∧ match t !! "date" with
      | Some v => parse_date v = Ok dv
      | None =>
          ∃ dt, _determine_suitable_date now fuel d user = Some (Ok dt)
                ∧ dv = VDatetime dt
      end
    ∧ match t !! "period" with
      | Some v => py_int v = Ok pv
      | None => pv = DEFAULT_PERIOD
      end.
Proof.
  unfold _parse_task. intros H.
  destruct (t !! "date") as [v|] eqn:Hd.
  - destruct (parse_date v) as [dv|] eqn:Hp; simpl in H; [|discriminate].
    rewrite lookup_insert_ne in H by done.
    destruct (t !! "period") as [pv|] eqn:Hper.
    + destruct (py_int pv) as [z|]; simpl in H; [|discriminate].
      injection H as <-. by exists dv, z.
    + injection H as <-. by exists dv, DEFAULT_PERIOD.
  - destruct (_determine_suitable_date now fuel d user) as [[dt|]|] eqn:Hs;
      simpl in H; try discriminate.
    rewrite lookup_insert_ne in H by done.
    destruct (t !! "period") as [pv|] eqn:Hper.
    + destruct (py_int pv) as [z|]; simpl in H; [|discriminate].
      injection H as <-. exists (VDatetime dt), z. eauto.
    + injection H as <-. exists (VDatetime dt), DEFAULT_PERIOD. eauto.
Qed.

(** C4, as the code has it: [update] writes the supplied fields, and
    always [date] and [period], over the stored task: the parsed values
    when the message has them, the suitable date and the default period 4
    when it has not. Every other attribute that the message does not name
    keeps its value, and no other task changes. *)
Theorem update_overwrites (fuel : nat) (user message : string) (d : db)
    (tokens : gmap string string) (upd : dict) (key : string) (t : task) :
  _tokenize_message message = Ok tokens →
  _parse_task now parse_date fuel d user (VStr <$> tokens) = Some (Ok upd) →
  tokens !! "shortcut" = Some key →
  stored d user key = Some t →
  ∃ (reply : value) (d' : db) (t' : task),
    update now parse_date py_str fuel user message d = Some (Ok reply, d')
    ∧ stored d' user key = Some t'
    ∧ (∀ k v, tokens !! k = Some v → k ≠ "date" → k ≠ "period" →
         t' !! k = Some (VStr v))
    ∧ (∀ k, tokens !! k = None → k ≠ "date" → k ≠ "period" →
         t' !! k = t !! k)
    ∧ (∃ dv, t' !! "date" = Some dv
         ∧ match tokens !! "date" with
           | Some text => parse_date (VStr text) = Ok dv
           | None =>
               ∃ dt, _determine_suitable_date now fuel d user = Some (Ok dt)
                     ∧ dv = VDatetime dt
           end)
    ∧ (∃ pv, t' !! "period" = Some (VInt pv)
         ∧ match tokens !! "period" with
           | Some text => py_int (VStr text) = Ok pv
           | None => pv = 4%Z
           end)
    ∧ (∀ u s, (u ≠ user ∨ s ≠ key) → stored d' u s = stored d u s).
Proof.
  intros Htok Hparse Hkey Hstored.
  destruct (parse_task_inv _ _ _ _ _ Hparse) as (dv & pv & -> & Hdv & Hpv).
  rewrite lookup_fmap in Hdv, Hpv.
  set (upd := <["period" := VInt pv]> (<["date" := dv]> (VStr <$> tokens))).
  assert (Hother : ∀ k, k ≠ "date" → k ≠ "period" →
                     upd !! k = VStr <$> tokens !! k).
  { intros k H1 H2. subst upd.
    by rewrite !lookup_insert_ne, lookup_fmap by done. }
  unfold stored in Hstored.
  destruct (d !! user) as [m|] eqn:Hm; simpl in Hstored; [|discriminate].
  assert (Hsc : (upd ∪ t) !! "shortcut" = Some (VStr key)).
  { apply lookup_union_Some_l. rewrite Hother by done. by rewrite Hkey. }
  exists (VStr ("Successfully updated task " +:+ py_str (VStr key))),
    (<[user := <[key := upd ∪ t]> m]> d), (upd ∪ t).
  split; [|split; [|split; [|split; [|split; [|split]]]]].
  - unfold update, mbind, cmd_bind, query, raise_or, store, parse_message,
      lift. rewrite Htok. simpl. fold upd in Hparse.
    unfold mbind, looping_bind. rewrite Hparse.
    rewrite Hother by done. rewrite Hkey. simpl.
    unfold Repo.get_task, Repo.update_task, getattr.
    rewrite Hm. simpl. rewrite Hstored, Hsc. simpl.
    by rewrite Hstored.
  - unfold stored. by rewrite lookup_insert_eq; simpl; rewrite lookup_insert_eq.
  - intros k v Hk H1 H2. apply lookup_union_Some_l.
    rewrite Hother by done. by rewrite Hk.
  - intros k Hk H1 H2. apply lookup_union_r.
    rewrite Hother by done. by rewrite Hk.
  - exists dv. split.
    + apply lookup_union_Some_l. subst upd.
      by rewrite lookup_insert_ne, lookup_insert_eq.
    + by destruct (tokens !! "date").
  - exists pv. split.
    + apply lookup_union_Some_l. subst upd. by rewrite lookup_insert_eq.
    + by destruct (tokens !! "period").
  - intros u s Hne. unfold stored.
    destruct (decide (u = user)) as [->|Hu].
    + rewrite lookup_insert_eq, Hm. simpl.
      destruct Hne as [Hne|Hne]; [done|]. by rewrite lookup_insert_ne.
    + by rewrite lookup_insert_ne.
Qed.

End Handlers.

Lemma update_overwrites_witness :
  ∃ (reply : value) (d' : db) (t' : task),
    update (mkDatetime 738886 0) no_parser str_of 1 "bob"
      "/update abc feed the cat" one_task = Some (Ok reply, d')
    ∧ stored d' "bob" "abc" = Some t'
    ∧ t' !! "text" = Some (VStr "feed the cat")
    ∧ t' !! "reschedule" = Some (VBool false)
    ∧ t' !! "period" = Some (VInt 4).
Proof.
  destruct (update_overwrites (mkDatetime 738886 0) no_parser str_of 1 "bob"
              "/update abc feed the cat" one_task
              (<["text" := "feed the cat"]> {[ "shortcut" := "abc" ]})
              (<["period" := VInt 4]>
                 (<["date" := VDatetime (mkDatetime 738886 0)]>
                    (VStr <$> <["text" := "feed the cat"]>
                                {[ "shortcut" := "abc" ]})))
              "abc" (chore "bob" "abc" 738900 7 false))
    as (reply & d' & t' & Hrun & Hst & Hnew & Hold & _ & (pv & Hp & Hpv) & _);
    try (vm_compute; reflexivity).
  exists reply, d', t'. split; [done|]. split; [done|]. split; [|split].
  - by apply Hnew.
  - by rewrite Hold.
  - simpl in Hpv. by rewrite Hp, Hpv.
Defined.

(** C4, as stated: a message that names neither date nor period still
    changes both on the stored task. *)
Lemma update_resets_date_and_period :
  _tokenize_message "/update abc feed the cat"
  = Ok (<["text" := "feed the cat"]> {[ "shortcut" := "abc" ]})
  ∧ stored one_task "bob" "abc" ≫= (.!! "period") = Some (VInt 7)
  ∧ stored one_task "bob" "abc" ≫= (.!! "date")
    = Some (VDatetime (mkDatetime 738900 32400))
  ∧ outcome (update (mkDatetime 738886 0) no_parser str_of 1 "bob"
               "/update abc feed the cat" one_task)
    = Some (Ok (VStr "Successfully updated task abc"))
  ∧ field_after (update (mkDatetime 738886 0) no_parser str_of 1 "bob"
                   "/update abc feed the cat" one_task) "bob" "abc" "period"
    = Some (VInt 4)
  ∧ field_after (update (mkDatetime 738886 0) no_parser str_of 1 "bob"
                   "/update abc feed the cat" one_task) "bob" "abc" "date"
    = Some (VDatetime (mkDatetime 738886 0)).
Proof.
  split; [vm_compute; reflexivity|]. split; [vm_compute; reflexivity|].
  split; [vm_compute; reflexivity|]. split; [vm_compute; reflexivity|].
  split; vm_compute; reflexivity.
Qed.

(** *** Completion *)

(** After [parse_message] the mapping always has a date, so the test
    ['date' in task] of [complete] never fails and the clock is never
    read there. *)
Lemma parse_message_has_date (now : datetime) (parse_date : value → res value)
    (fuel : nat) (d : db) (user message : string) (t : dict) :
  parse_message now parse_date fuel d user message = Some (Ok t) →
  is_Some (t !! "date").
Proof.
  unfold parse_message. destruct (_tokenize_message message) as [tokens|];
    simpl; [|discriminate].
  intros H. destruct (parse_task_inv _ _ _ _ _ _ _ H) as (dv & pv & -> & _).
  exists dv. by rewrite lookup_insert_ne, lookup_insert_eq.
Qed.

(** C9 at [/complete abc] on day 738886: no date is supplied, yet the
    completion that is recorded is not [now]. The date handed to the second
    call of the parser is the suitable date, one day ahead: a parser that
    passes datetimes records that day and schedules the task three days
    after it; a parser for strings only raises, and nothing is recorded. *)
Lemma complete_without_date_misses_now :
  outcome (complete (mkDatetime 738886 900) passing_parser 5 "bob"
             "/complete abc" busy_day) = Some (Ok VNone)
  ∧ field_after (complete (mkDatetime 738886 900) passing_parser 5 "bob"
                   "/complete abc" busy_day) "bob" "abc" "completions"
    = Some (VList [VDatetime (mkDatetime 738887 900)])
  ∧ field_after (complete (mkDatetime 738886 900) passing_parser 5 "bob"
                   "/complete abc" busy_day) "bob" "abc" "date"
    = Some (VDatetime (mkDatetime 738890 900))
  ∧ outcome (complete (mkDatetime 738886 900) strict_parser 5 "bob"
               "/complete abc" busy_day) = Some (Err TypeError)
  ∧ field_after (complete (mkDatetime 738886 900) strict_parser 5 "bob"
                   "/complete abc" busy_day) "bob" "abc" "completions"
    = Some (VList []).
Proof.
  split; [vm_compute; reflexivity|]. split; [vm_compute; reflexivity|].
  split; [vm_compute; reflexivity|]. split; vm_compute; reflexivity.
Qed.

(** * Further properties *)

(** ** More on the tokenizer *)

Lemma tokenize_attrs_keeps (parts : list string) :
  ∀ (key : string) (result r : gmap string string),
    tokenize_attrs parts key result = Ok r →
    ∀ k, is_Some (result !! k) → is_Some (r !! k).
Proof.
  induction parts as [|part rest IH]; intros key result r H k Hk;
    [discriminate|].
  simpl in H. destruct rest as [|part2 rest].
  - injection H as <-. apply lookup_insert_is_Some.
    destruct (decide (key = k)); auto.
  - destruct (PyStr.strip <$> PyStr.rsplit 1 part) as [|v [|k2 [|? ?]]];
      try discriminate.
    apply (IH _ _ _ H). apply lookup_insert_is_Some.
    destruct (decide (key = k)); auto.
Qed.

(** X1: Whatever the message, a mapping that the tokenizer returns has a
    shortcut, and its text, when it has one, is not the empty string. *)
Theorem tokenize_shortcut_and_text (message : string)
    (r : gmap string string) :
  _tokenize_message message = Ok r →
  is_Some (r !! "shortcut") ∧ r !! "text" ≠ Some EmptyString.
Proof.
  unfold _tokenize_message.
  destruct (PyStr.split 2 message) as [|verb [|sc [|rest [|? ?]]]];
    try discriminate.
  - intros [= <-]. split; [by rewrite lookup_singleton_eq|].
    by rewrite lookup_singleton_ne.
  - destruct (tokenize_attrs (PyStr.split_on ":" rest) "text"
                {[ "shortcut" := sc ]}) as [res|] eqn:E; simpl;
      [|discriminate].
    assert (Hsc : is_Some (res !! "shortcut")).
    { apply (tokenize_attrs_keeps _ _ _ _ E).
      by rewrite lookup_singleton_eq. }
    destruct (res !! "text") as [[|c txt]|] eqn:Ht; intros [= <-].
    + split; [by rewrite lookup_delete_ne|]. by rewrite lookup_delete_eq.
    + split; [done|]. by rewrite Ht.
Qed.

Lemma tokenize_shortcut_and_text_witness :
  is_Some ((<["period" := "2"]> (<["text" := "buy milk"]>
              ({[ "shortcut" := "abc" ]} : gmap string string)))
           !! "shortcut")
  ∧ (<["period" := "2"]> (<["text" := "buy milk"]>
       ({[ "shortcut" := "abc" ]} : gmap string string))) !! "text"
    ≠ Some EmptyString.
Proof.
  apply (tokenize_shortcut_and_text "/add abc buy milk period:2").
  reflexivity.
Defined.

(** X2: A message of whitespace only, or with nothing but the verb, raises
    [ValueError]. *)
Theorem tokenize_without_shortcut (ws1 verb ws2 : string) :
  all_space ws1 = true → all_space ws2 = true → word verb →
  _tokenize_message ws1 = Err ValueError
  ∧ _tokenize_message (ws1 +:+ verb +:+ ws2) = Err ValueError.
Proof.
  intros H1 H2 Hv. unfold _tokenize_message. split.
  - by rewrite split_all_space.
  - rewrite (split_cons 1 ws1 verb ws2 H1 Hv (all_space_ends_word _ H2)).
    by rewrite split_all_space.
Qed.

Lemma tokenize_without_shortcut_witness :
  _tokenize_message "   " = Err ValueError
  ∧ _tokenize_message ("   " +:+ "/remove" +:+ "  ") = Err ValueError.
Proof.
  apply (tokenize_without_shortcut "   " "/remove" "  ");
    [reflexivity|reflexivity|]. split; [discriminate|reflexivity].
Defined.

Lemma starts_token_lstrip (s : string) :
  starts_token s → PyStr.lstrip s = s ∧ s ≠ EmptyString.
Proof. destruct s as [|c s]; simpl; [done|]. by intros ->. Qed.

Lemma word_starts_token (w s : string) : word w → starts_token (w +:+ s).
Proof.
  intros [Hne Hw]. destruct w as [|c w]; [done|]. rewrite append_cons.
  simpl in *. apply andb_true_iff in Hw as [Hc _]. by apply negb_true_iff.
Qed.

Lemma split_zero (s : string) :
  starts_token s → PyStr.split 0 s = [s].
Proof.
  intros [Hl Hne]%starts_token_lstrip.
  change (PyStr.split 0 s) with
    (match PyStr.lstrip s with EmptyString => [] | s1 => [s1] end).
  rewrite Hl. by destruct s.
Qed.

(** The three parts of [ws1 verb ws2 shortcut ws3 tail]. *)
Lemma split_three_parts (ws1 verb ws2 sc ws3 tail : string) :
  all_space ws1 = true → word verb → gap ws2 → word sc → gap ws3 →
  starts_token tail →
  PyStr.split 2 (ws1 +:+ verb +:+ ws2 +:+ sc +:+ ws3 +:+ tail)
  = [verb; sc; tail].
Proof.
  intros H1 Hv H2 Hs H3 Ht. pose proof (proj2 H2) as H2'.
  rewrite (split_cons 1 ws1 verb) by (try done; by apply gap_ends_word).
  rewrite (split_cons 0 ws2 sc) by (try done; by apply gap_ends_word).
  change (PyStr.split 0 (ws3 +:+ tail)) with
    (match PyStr.lstrip (ws3 +:+ tail) with
     | EmptyString => []
     | s1 => [s1]
     end).
  rewrite (lstrip_all_space ws3 tail (proj2 H3)).
  destruct (starts_token_lstrip tail Ht) as [-> Hne]. by destruct tail.
Qed.

Lemma split_on_no_colon (k : string) :
  no_colon k = true → PyStr.split_on ":" k = [k].
Proof.
  induction k as [|c k IH]; [done|]. simpl.
  intros [Hc Hk]%andb_true_iff. apply negb_true_iff in Hc.
  by rewrite Hc, (IH Hk).
Qed.

Lemma split_on_first_colon (k rest : string) :
  no_colon k = true →
  PyStr.split_on ":" (k +:+ ":" +:+ rest) = k :: PyStr.split_on ":" rest.
Proof.
  induction k as [|c k IH]; [done|]. rewrite append_cons. simpl.
  intros [Hc Hk]%andb_true_iff. apply negb_true_iff in Hc.
  by rewrite Hc, (IH Hk).
Qed.

Lemma split_on_not_nil (sep : ascii) (s : string) : PyStr.split_on sep s ≠ [].
Proof.
  destruct s as [|c s]; simpl; [done|].
  destruct (Ascii.eqb c sep); [done|]. by destruct (PyStr.split_on sep s).
Qed.

Lemma all_space_rev_app (s acc : string) :
  all_space (String.rev_app s acc) = all_space s && all_space acc.
Proof.
  revert acc. induction s as [|c s IH]; intros acc; simpl; [done|].
  rewrite IH. simpl. destruct (PyStr.isspace c), (all_space s); simpl; done.
Qed.

Lemma no_space_rev_app (s acc : string) :
  no_space (String.rev_app s acc) = no_space s && no_space acc.
Proof.
  revert acc. induction s as [|c s IH]; intros acc; simpl; [done|].
  rewrite IH. simpl. destruct (PyStr.isspace c), (no_space s); simpl; done.
Qed.

Lemma rev_app_empty (s acc : string) :
  String.rev_app s acc = EmptyString → s = EmptyString ∧ acc = EmptyString.
Proof.
  revert acc. induction s as [|c s IH]; intros acc; simpl; [done|].
  intros H. by destruct (IH _ H) as [_ ?].
Qed.

Lemma word_rev (w : string) : word w → word (String.rev w).
Proof.
  intros [Hne Hw]. split.
  - intros H. by apply rev_app_empty in H as [? _].
  - unfold String.rev. by rewrite no_space_rev_app, Hw.
Qed.

(** A single word has nothing to split off. *)
Lemma rsplit_word (w : string) :
  word w → PyStr.rsplit 1 w = [String.rev (String.rev w)].
Proof.
  intros Hw. unfold PyStr.rsplit.
  pose proof (split_cons 0 EmptyString (String.rev w) EmptyString eq_refl
                (word_rev w Hw) I) as H.
  rewrite append_empty_l, append_empty_r in H. rewrite H.
  by rewrite (split_all_space 0 EmptyString).
Qed.

Lemma lstrip_empty (s : string) :
  PyStr.lstrip s = EmptyString → all_space s = true.
Proof.
  induction s as [|c s IH]; simpl; [done|].
  destruct (PyStr.isspace c); [by auto|discriminate].
Qed.

Lemma strip_not_empty (s : string) :
  starts_token s → PyStr.strip s ≠ EmptyString.
Proof.
  intros Hs. destruct (starts_token_lstrip s Hs) as [Hl Hne].
  unfold PyStr.strip, PyStr.rstrip. rewrite Hl. intros E.
  apply rev_app_empty in E as [E _]. apply lstrip_empty in E.
  unfold String.rev in E. rewrite all_space_rev_app in E.
  apply andb_true_iff in E as [E _].
  destruct s as [|c s]; [done|]. simpl in Hs, E.
  rewrite Hs in E. discriminate.
Qed.

(** X3: A message whose shortcut is followed by plain text, with no colon in
    it, yields the shortcut and the text without the whitespace around
    it. *)
Theorem tokenize_text_only (ws1 verb ws2 sc ws3 text : string) :
  all_space ws1 = true → word verb → gap ws2 → word sc → gap ws3 →
  starts_token text → no_colon text = true →
  _tokenize_message (ws1 +:+ verb +:+ ws2 +:+ sc +:+ ws3 +:+ text)
  = Ok (<["text" := PyStr.strip text]> {[ "shortcut" := sc ]}).
Proof.
  intros H1 Hv H2 Hs H3 Ht Hc. unfold _tokenize_message.
  rewrite split_three_parts by done. rewrite split_on_no_colon by done.
  simpl. rewrite lookup_insert_eq.
  pose proof (strip_not_empty text Ht) as Hne.
  by destruct (PyStr.strip text).
Qed.

Lemma tokenize_text_only_witness :
  _tokenize_message (" " +:+ "/add" +:+ "  " +:+ "milk" +:+ " "
                       +:+ "buy two litres  ")
  = Ok (<["text" := PyStr.strip "buy two litres  "]> {[ "shortcut" := "milk" ]}).
Proof.
  apply (tokenize_text_only " " "/add" "  " "milk" " " "buy two litres  ");
    repeat split; (reflexivity || discriminate).
Defined.

(** X4: An attribute that follows the shortcut directly, with no text in
    between, makes the tokenizer raise [ValueError]: the one word in front of
    the first colon cannot be unpacked into a text and a key. *)
Theorem tokenize_attribute_needs_text (ws1 verb ws2 sc ws3 k rest : string) :
  all_space ws1 = true → word verb → gap ws2 → word sc → gap ws3 →
  word k → no_colon k = true →
  _tokenize_message
    (ws1 +:+ verb +:+ ws2 +:+ sc +:+ ws3 +:+ k +:+ ":" +:+ rest)
  = Err ValueError.
Proof.
  intros H1 Hv H2 Hs H3 Hk Hc. unfold _tokenize_message.
  rewrite split_three_parts by (try done; by apply word_starts_token).
  rewrite split_on_first_colon by done.
  pose proof (split_on_not_nil ":" rest) as Hne.
  destruct (PyStr.split_on ":" rest) as [|h t]; [done|].
  simpl. by rewrite rsplit_word.
Qed.

Lemma tokenize_attribute_needs_text_witness :
  _tokenize_message ("" +:+ "/add" +:+ " " +:+ "abc" +:+ " " +:+ "period"
                       +:+ ":" +:+ "2 date:2024-01-01")
  = Err ValueError.
Proof.
  apply (tokenize_attribute_needs_text "" "/add" " " "abc" " " "period"
           "2 date:2024-01-01");
    repeat split; (reflexivity || discriminate).
Defined.

(** ** More on the resolver *)

Section ResolverMore.

Variable now : datetime.
Variable parse_date : value → res value.
Variable Task : dict → res task.
Variable py_str : value → string.
Variable py_repr : task → string.

(** X6: The five handlers that resolve their message do nothing else before:
    when the resolution raises, the handler raises the same exception and
    the repository is as it was; when it does not end, neither does the
    handler. *)
Theorem resolution_failure_is_passed_on (fuel : nat) (user message : string)
    (d : db) :
  (∀ e : exn,
     parse_message now parse_date fuel d user message = Some (Err e) →
     add now parse_date Task py_str fuel user message d = Some (Err e, d)
     ∧ update now parse_date py_str fuel user message d = Some (Err e, d)
     ∧ remove now parse_date py_str fuel user message d = Some (Err e, d)
     ∧ get now parse_date py_repr fuel user message d = Some (Err e, d)
     ∧ complete now parse_date fuel user message d = Some (Err e, d))
  ∧ (parse_message now parse_date fuel d user message = None →
     add now parse_date Task py_str fuel user message d = None
     ∧ update now parse_date py_str fuel user message d = None
     ∧ remove now parse_date py_str fuel user message d = None
     ∧ get now parse_date py_repr fuel user message d = None
     ∧ complete now parse_date fuel user message d = None).
Proof.
  split; [intros e E|intros E];
    unfold add, update, remove, get, complete, mbind, cmd_bind, query;
    rewrite E; done.
Qed.

(** X7: After a successful resolution the mapping has a string for its
    shortcut, a date and an integer period: the lookups of the handlers
    cannot fail. *)
Theorem parse_message_fields (fuel : nat) (d : db) (user message : string)
    (t : dict) :
  parse_message now parse_date fuel d user message = Some (Ok t) →
  ∃ (sc : string) (dv : value) (p : Z),
    t !! "shortcut" = Some (VStr sc) ∧ t !! "date" = Some dv
    ∧ t !! "period" = Some (VInt p).
Proof.
  unfold parse_message.
  destruct (_tokenize_message message) as [tokens|] eqn:Htok; simpl;
    [|discriminate].
  intros H. destruct (parse_task_inv _ _ _ _ _ _ _ H) as (dv & pv & -> & _).
  assert (Hsc : is_Some (tokens !! "shortcut")).
  { unfold _tokenize_message in Htok.
    destruct (PyStr.split 2 message) as [|verb [|sc [|rest [|? ?]]]];
      try discriminate.
    - injection Htok as <-. by rewrite lookup_singleton_eq.
    - destruct (tokenize_attrs (PyStr.split_on ":" rest) "text"
                  {[ "shortcut" := sc ]}) as [res|] eqn:E; simpl in Htok;
        [|discriminate].
      assert (Hres : is_Some (res !! "shortcut")).
      { apply (tokenize_attrs_keeps _ _ _ _ E).
        by rewrite lookup_singleton_eq. }
      destruct (res !! "text") as [[|c txt]|]; try discriminate;
        injection Htok as <-; [by rewrite lookup_delete_ne|done]. }
  destruct Hsc as [sc Hsc]. exists sc, dv, pv. split; [|split].
  - rewrite !lookup_insert_ne by done. by rewrite lookup_fmap, Hsc.
  - by rewrite lookup_insert_ne, lookup_insert_eq.
  - by rewrite lookup_insert_eq.
Qed.

(** X8: A user with fewer than three tasks today gets [now] itself as the
    default date, with its time of day, after one test of the loop. *)
Theorem suitable_date_is_now (fuel : nat) (d : db) (user : string)
    (days : list Z) :
  task_days (Repo.get_users_tasks d user) = Ok days →
  (on_day (to_date now) days < TASK_PER_DAY_LIMIT)%nat →
  _determine_suitable_date now (S fuel) d user = Some (Ok now).
Proof.
  intros Hdays Hfree. unfold _determine_suitable_date. rewrite Hdays.
  assert (H : find_date (S fuel) (Counter days) now
              = Some (Ok (add_days now (Z.of_nat 0)))).
  { apply find_date_first_free.
    - lia.
    - by rewrite Z.add_0_r.
    - intros j Hj. lia. }
  change (Z.of_nat 0) with 0%Z in H. rewrite add_days_0 in H. exact H.
Qed.

Lemma task_day_error (t : task) (e : exn) :
  task_day t = Err e → e = AttributeError.
Proof.
  unfold task_day, getattr.
  destruct (t !! "date") as [[| | | | |]|]; simpl; congruence.
Qed.

Lemma task_days_undated (tasks : list task) (t : task) :
  t ∈ tasks → (∀ D, t !! "date" ≠ Some (VDatetime D)) →
  task_days tasks = Err AttributeError.
Proof.
  intros Hin Hbad. induction tasks as [|t0 tasks IH];
    [by apply elem_of_nil in Hin|].
  simpl. destruct (task_day t0) as [day|e] eqn:E; simpl.
  - apply elem_of_cons in Hin as [->|Hin].
    + unfold task_day, getattr in E.
      destruct (t0 !! "date") as [[| | | |D|]|] eqn:Hd; simpl in E;
        try discriminate. by destruct (Hbad D).
    + by rewrite (IH Hin).
  - by rewrite (task_day_error t0 e E).
Qed.

(** X9: One stored task whose date is not a datetime is enough to make the
    search for a default date raise [AttributeError] for that user, and
    with it the resolution of every mapping that brings no date. *)
Theorem undated_task_blocks_default_date (fuel : nat) (d : db)
    (user shortcut : string) (t : task) (fields : dict) :
  stored d user shortcut = Some t →
  (∀ D, t !! "date" ≠ Some (VDatetime D)) →
  _determine_suitable_date now fuel d user = Some (Err AttributeError)
  ∧ (fields !! "date" = None →
     _parse_task now parse_date fuel d user fields
     = Some (Err AttributeError)).
Proof.
  intros Hs Hbad.
  assert (E : _determine_suitable_date now fuel d user
              = Some (Err AttributeError)).
  { unfold _determine_suitable_date.
    rewrite (task_days_undated _ t); [done| |done].
    unfold Repo.get_users_tasks, stored in *.
    destruct (d !! user) as [m|]; simpl in *; [|discriminate].
    apply list_elem_of_fmap. exists (shortcut, t). split; [done|].
    by apply elem_of_map_to_list. }
  split; [done|]. intros Hd. unfold _parse_task. by rewrite Hd, E.
Qed.

End ResolverMore.

Lemma resolution_failure_is_passed_on_witness :
  update (mkDatetime 738886 0) no_parser str_of 1 "bob" "/update" one_task
  = Some (Err ValueError, one_task).
Proof.
  refine (proj1 (proj2 (proj1 (resolution_failure_is_passed_on
            (mkDatetime 738886 0) no_parser (fun t => Ok t) str_of
            (fun _ => EmptyString) 1 "bob" "/update" one_task)
            ValueError _))).
  reflexivity.
Defined.

Lemma parse_message_fields_witness :
  ∃ (sc : string) (dv : value) (p : Z),
    (<["period" := VInt 4]>
       (<["date" := VDatetime (mkDatetime 738886 0)]>
          ({[ "shortcut" := VStr "abc" ]} : dict))) !! "shortcut"
    = Some (VStr sc)
    ∧ (<["period" := VInt 4]>
         (<["date" := VDatetime (mkDatetime 738886 0)]>
            ({[ "shortcut" := VStr "abc" ]} : dict))) !! "date" = Some dv
    ∧ (<["period" := VInt 4]>
         (<["date" := VDatetime (mkDatetime 738886 0)]>
            ({[ "shortcut" := VStr "abc" ]} : dict))) !! "period"
      = Some (VInt p).
Proof.
  apply (parse_message_fields (mkDatetime 738886 0) no_parser 1 ∅ "bob"
           "/get abc").
  reflexivity.
Defined.

Lemma suitable_date_is_now_witness :
  _determine_suitable_date (mkDatetime 738887 0) 1 three_today "bob"
  = Some (Ok (mkDatetime 738887 0)).
Proof.
  apply (suitable_date_is_now (mkDatetime 738887 0) 0 three_today "bob"
           [738886; 738886; 738886]%Z).
  - reflexivity.
  - vm_compute. lia.
Defined.

Lemma undated_task_blocks_default_date_witness :
  _determine_suitable_date (mkDatetime 738886 0) 1 undated_db "bob"
  = Some (Err AttributeError).
Proof.
  refine (proj1 (undated_task_blocks_default_date (mkDatetime 738886 0)
                   no_parser 1 undated_db "bob" "abc"
                   (<["date" := VNone]> (chore "bob" "abc" 738886 4 false))
                   ∅ _ _)).
  - reflexivity.
  - intros D H. vm_compute in H. discriminate.
Defined.

(** ** More on catching up *)

Section CatchUpMore.

Variable now : datetime.

Lemma catch_up_step_frame (t t1 : task) :
  catch_up_step now t = Ok t1 → ∀ k, k ≠ "date" → t1 !! k = t !! k.
Proof.
  unfold catch_up_step, getattr. intros H k Hk.
  destruct (t !! "reschedule") as [rs|]; simpl in H; [|discriminate].
  destruct (truthy rs).
  - injection H as <-. by rewrite lookup_insert_ne.
  - destruct (t !! "date") as [dv|]; simpl in H; [|discriminate].
    destruct (as_datetime dv) as [D|]; simpl in H; [|discriminate].
    destruct (t !! "period") as [pv|]; simpl in H; [|discriminate].
    destruct (as_days pv) as [P|]; simpl in H; [|discriminate].
    injection H as <-. by rewrite lookup_insert_ne.
Qed.

Lemma catch_up_frame (fuel : nat) :
  ∀ t t' : task,
    catch_up now fuel t = Some (Ok t') →
    ∀ k, k ≠ "date" → t' !! k = t !! k.
Proof.
  induction fuel as [|fuel IH]; intros t t' H k Hk; [discriminate|].
  rewrite catch_up_succ in H.
  destruct (overdue now t) as [[|]|]; simpl in H; try discriminate.
  - destruct (catch_up_step now t) as [t1|] eqn:E; simpl in H;
      [|discriminate].
    rewrite (IH t1 t' H k Hk). by apply (catch_up_step_frame t t1).
  - by injection H as <-.
Qed.

(** X10: The loop writes the date and nothing else: every other attribute of
    the task it returns is the one it was given. *)
Theorem catch_up_changes_date_only (fuel : nat) (t t' : task) (k : string) :
  catch_up now fuel t = Some (Ok t') → k ≠ "date" → t' !! k = t !! k.
Proof. intros H Hk. by apply (catch_up_frame fuel t t' H). Qed.

(** X11: Catching up is idempotent: the task that the loop returns is left as
    it is by the loop, with any fuel. *)
Theorem catch_up_idempotent (fuel fuel' : nat) (t t' : task) :
  catch_up now fuel t = Some (Ok t') →
  catch_up now (S fuel') t' = Some (Ok t').
Proof.
  intros H. destruct (catch_up_result_current now fuel t t' H) as (D & Hd & Hle).
  by apply (catch_up_current now fuel' t' D).
Qed.

(** X12: An overdue task with a true reschedule flag is set to [now], time of
    day included, in one pass; its period is not looked at. *)
Theorem catch_up_reschedules_to_now (fuel : nat) (t : task) (D : datetime)
    (rs : value) :
  t !! "date" = Some (VDatetime D) → (to_date D < to_date now)%Z →
  t !! "reschedule" = Some rs → truthy rs = true →
  catch_up now (S (S fuel)) t = Some (Ok (<["date" := VDatetime now]> t)).
Proof.
  intros Hd Hlt Hr Hrs.
  rewrite catch_up_succ, (overdue_dated now t D Hd). simpl.
  destruct (Z.ltb_spec (to_date D) (to_date now)); [|lia].
  rewrite (step_to_today now t rs Hr Hrs). simpl.
  apply (catch_up_current now fuel _ now); [|lia].
  by rewrite lookup_insert_eq.
Qed.

End CatchUpMore.

Lemma catch_up_changes_date_only_witness :
  (<["date" := VDatetime (mkDatetime 738890 32400)]> (walking 738886 2))
    !! "period" = walking 738886 2 !! "period".
Proof.
  apply (catch_up_changes_date_only (mkDatetime 738889 0) 5
           (walking 738886 2)); [reflexivity|discriminate].
Defined.

Lemma catch_up_idempotent_witness :
  catch_up (mkDatetime 738889 0) 1
    (<["date" := VDatetime (mkDatetime 738890 32400)]> (walking 738886 2))
  = Some (Ok (<["date" := VDatetime (mkDatetime 738890 32400)]>
                (walking 738886 2))).
Proof.
  apply (catch_up_idempotent (mkDatetime 738889 0) 5 0 (walking 738886 2)).
  reflexivity.
Defined.

Lemma catch_up_reschedules_to_now_witness :
  catch_up (mkDatetime 738896 900) 2 (chore "alice" "bins" 738890 7 true)
  = Some (Ok (<["date" := VDatetime (mkDatetime 738896 900)]>
                (chore "alice" "bins" 738890 7 true))).
Proof.
  apply (catch_up_reschedules_to_now (mkDatetime 738896 900) 0
           (chore "alice" "bins" 738890 7 true) (mkDatetime 738890 32400)
           (VBool true)); (reflexivity || (simpl; lia)).
Defined.

Section RangedNeverReturns.

Variable now : datetime.

Lemma ranged_never_ok (P : Z) (rs : value) :
  (P ≤ 0)%Z → truthy rs = false →
  ∀ (fuel : nat) (t : task) (D : datetime),
    t !! "date" = Some (VDatetime D) → (to_date D < to_date now)%Z →
    t !! "reschedule" = Some rs → t !! "period" = Some (VInt P) →
    ∀ t' : task, Ranged.catch_up now fuel t ≠ Some (Ok t').
Proof.
  intros HP Hrs. induction fuel as [|fuel IH]; intros t D Hd Hlt Hr Hp t';
    [done|].
  rewrite (ranged_overdue now fuel t D Hd Hlt).
  destruct (Ranged.catch_up_step now t) as [t1|e] eqn:E; simpl;
    [|discriminate].
  apply ranged_step_refines in E.
  rewrite (step_by_period now t D rs P Hd Hr Hrs Hp) in E. injection E as <-.
  apply (IH _ (add_days D P)).
  - by rewrite lookup_insert_eq.
  - unfold add_days, to_date in *. simpl. lia.
  - by rewrite lookup_insert_ne.
  - by rewrite lookup_insert_ne.
Qed.

Lemma ranged_zero_loops (rs : value) :
  truthy rs = false →
  ∀ (fuel : nat) (t : task) (D : datetime),
    t !! "date" = Some (VDatetime D) → valid D →
    (to_date D < to_date now)%Z →
    t !! "reschedule" = Some rs → t !! "period" = Some (VInt 0) →
    Ranged.catch_up now fuel t = None.
Proof.
  intros Hrs. induction fuel as [|fuel IH]; intros t D Hd Hv Hlt Hr Hp;
    [done|].
  rewrite (ranged_overdue now fuel t D Hd Hlt).
  rewrite (ranged_step_by_period now t D rs 0 Hd Hr Hrs Hp);
    [|unfold Ranged.MAX_DELTA_DAYS; lia|unfold valid in Hv; lia].
  simpl. apply (IH _ (add_days D 0)).
  - by rewrite lookup_insert_eq.
  - unfold valid, add_days, to_date in *. simpl. lia.
  - unfold add_days, to_date in *. simpl. lia.
  - by rewrite lookup_insert_ne.
  - by rewrite lookup_insert_ne.
Qed.

Lemma ranged_negative_raises (P : Z) (rs : value) :
  (P < 0)%Z → truthy rs = false →
  ∀ (g : nat) (t : task) (D : datetime),
    t !! "date" = Some (VDatetime D) → valid D →
    (to_date D < to_date now)%Z →
    t !! "reschedule" = Some rs → t !! "period" = Some (VInt P) →
    (to_date D - Ranged.MIN_DAY ≤ Z.of_nat g)%Z →
    ∀ fuel : nat, (g < fuel)%nat →
      Ranged.catch_up now fuel t = Some (Err OverflowError).
Proof.
  intros HP Hrs. induction g as [|g IH];
    intros t D Hd Hv Hlt Hr Hp Hg [|fuel] Hfuel; try lia;
    rewrite (ranged_overdue now fuel t D Hd Hlt);
    (destruct (decide ((Z.abs P ≤ Ranged.MAX_DELTA_DAYS)%Z
                       ∧ (Ranged.MIN_DAY ≤ to_date D + P
                          ≤ Ranged.MAX_DAY)%Z)) as [[Hdelta Hday]|Hout];
     [|by rewrite (ranged_step_overflow now t D rs P Hd Hr Hrs Hp Hout)]).
  - lia.
  - rewrite (ranged_step_by_period now t D rs P Hd Hr Hrs Hp Hdelta Hday).
    simpl. apply (IH _ (add_days D P)).
    + by rewrite lookup_insert_eq.
    + unfold valid, add_days, to_date in *. simpl. lia.
    + unfold add_days, to_date in *. simpl. lia.
    + by rewrite lookup_insert_ne.
    + by rewrite lookup_insert_ne.
    + unfold add_days, to_date in *. simpl. lia.
    + lia.
Qed.

(** X13: An overdue task that is not rescheduled and whose period is zero or
    negative is never caught up: the loop returns no task, whatever the
    fuel. With the period zero it runs for ever; with a negative period it
    walks back until [timedelta] or [datetime] raises [OverflowError]. *)
Theorem catch_up_never_returns (P : Z) (rs : value) (t : task)
    (D : datetime) :
  (P ≤ 0)%Z → truthy rs = false →
  t !! "date" = Some (VDatetime D) → valid D → (to_date D < to_date now)%Z →
  t !! "reschedule" = Some rs → t !! "period" = Some (VInt P) →
  (∀ (fuel : nat) (t' : task), Ranged.catch_up now fuel t ≠ Some (Ok t'))
  ∧ (P = 0%Z → ∀ fuel : nat, Ranged.catch_up now fuel t = None)
  ∧ ((P < 0)%Z →
     ∀ fuel : nat,
       (Z.to_nat (to_date D - Ranged.MIN_DAY) < fuel)%nat →
       Ranged.catch_up now fuel t = Some (Err OverflowError)).
Proof.
  intros HP Hrs Hd Hv Hlt Hr Hp. split; [|split].
  - intros fuel t'. by apply (ranged_never_ok P rs HP Hrs fuel t D).
  - intros -> fuel. by apply (ranged_zero_loops rs Hrs fuel t D).
  - intros Hneg fuel Hfuel.
    apply (ranged_negative_raises P rs Hneg Hrs
             (Z.to_nat (to_date D - Ranged.MIN_DAY)) t D); try done.
    unfold valid in Hv. lia.
Qed.

End RangedNeverReturns.

Lemma catch_up_never_returns_witness :
  Ranged.catch_up (mkDatetime 738889 0) 100 (walking 738886 0) = None.
Proof.
  refine (proj1 (proj2 (catch_up_never_returns (mkDatetime 738889 0) 0
                          (VBool false) (walking 738886 0)
                          (mkDatetime 738886 32400) _ _ _ _ _ _ _))
            eq_refl 100%nat);
    (reflexivity || lia || (vm_compute; lia) || idtac).
  vm_compute. split; discriminate.
Defined.

(** ** More on the sweep *)

Section SweepMore.

Variable now : datetime.
Variable fuel : nat.

(** When the inner loop ends well on tasks that carry their own user and
    shortcut, the catch-up loop has ended well on each of them. *)
Lemma actualize_each_ready (u : string) (kts : list (string * task)) :
  ∀ (m : gmap string task) (dcur d2 : db),
    dcur !! u = Some m → NoDup kts.*1 →
    (∀ s t, (s, t) ∈ kts →
       m !! s = Some t ∧ t !! "user" = Some (VStr u)
       ∧ t !! "shortcut" = Some (VStr s)) →
    actualize_each now fuel kts.*2 dcur = Some (Ok tt, d2) →
    ∀ s t, (s, t) ∈ kts → ready now fuel u s t.
Proof.
  induction kts as [|[s t] rest IH]; intros m dcur d2 Hu Hnd Hall H s' t' Hin.
  - by apply elem_of_nil in Hin.
  - change (((s, t) :: rest).*1) with (s :: rest.*1) in Hnd.
    apply NoDup_cons in Hnd as [Hfresh Hnd].
    change (((s, t) :: rest).*2) with (t :: rest.*2) in H.
    rewrite actualize_each_cons in H.
    destruct (catch_up now fuel t) as [[t1|e]|] eqn:Hrun; try discriminate.
    destruct (Hall s t) as (Hs & Htu & Hts); [left|].
    assert (Htu1 : t1 !! "user" = Some (VStr u))
      by (by rewrite (catch_up_frame now fuel t t1 Hrun)).
    assert (Hts1 : t1 !! "shortcut" = Some (VStr s))
      by (by rewrite (catch_up_frame now fuel t t1 Hrun)).
    rewrite (update_own_stored dcur u s m t t1 Hu Hs Htu1 Hts1) in H.
    apply elem_of_cons in Hin as [Heq|Hin].
    + injection Heq as -> ->. unfold ready, caught_up. by rewrite Hrun.
    + apply (IH (<[s := t1]> m) (<[u := <[s := t1]> m]> dcur) d2);
        try done.
      * by rewrite lookup_insert_eq.
      * intros s2 t2 Hin2. destruct (Hall s2 t2) as (Hs2 & Hr2); [by right|].
        split; [|done]. rewrite lookup_insert_ne; [done|].
        intros ->. apply Hfresh. apply list_elem_of_fmap. by exists (s2, t2).
Qed.

Lemma actualize_users_ready (d : db) (us : list string) :
  well_kept d →
  ∀ dcur d2 : db,
    NoDup us →
    (∀ u, u ∈ us → is_Some (d !! u) ∧ dcur !! u = d !! u) →
    actualize_users now fuel us dcur = Some (Ok tt, d2) →
    ∀ u s t, u ∈ us → stored d u s = Some t → ready now fuel u s t.
Proof.
  intros Hwk. induction us as [|u rest IH];
    intros dcur d2 Hnd Hsame H u' s t Hin Hs.
  - by apply elem_of_nil in Hin.
  - apply NoDup_cons in Hnd as [Hfresh Hnd].
    destruct (Hsame u) as [[m Hm] Hcur]; [left|]. rewrite Hm in Hcur.
    rewrite actualize_users_cons in H.
    destruct (actualize_each now fuel (Repo.get_users_tasks dcur u) dcur)
      as [[[[]|e] d1]|] eqn:E; try discriminate.
    assert (Hready : ∀ s t, m !! s = Some t → ready now fuel u s t).
    { intros s0 t0 Hs0.
      unfold Repo.get_users_tasks in E. rewrite Hcur in E. simpl in E.
      apply (actualize_each_ready u (map_to_list m) m dcur d1 Hcur);
        [apply NoDup_fst_map_to_list| |done|by apply elem_of_map_to_list].
      intros s1 t1 Hin1%elem_of_map_to_list. split; [done|].
      apply (Hwk u s1 t1). unfold stored. by rewrite Hm. }
    rewrite (actualize_each_user now fuel u m dcur Hcur Hready) in E.
    injection E as <-.
    apply elem_of_cons in Hin as [->|Hin].
    + apply Hready. unfold stored in Hs. by rewrite Hm in Hs.
    + apply (IH (<[u := caught_up now fuel <$> m]> dcur) d2); try done.
      intros u2 Hin2. destruct (Hsame u2) as [Hsome Heq]; [by right|].
      split; [done|]. rewrite lookup_insert_ne; [done|]. by intros ->.
Qed.

(** A sweep that ends well has replaced every stored task by what the
    loop leaves of it. *)
Lemma actualize_tasks_inv (d d' : db) :
  well_kept d → _actualize_tasks now fuel d = Some (Ok tt, d') →
  (∀ u s t, stored d u s = Some t → ready now fuel u s t)
  ∧ d' = (fun m : gmap string task => caught_up now fuel <$> m) <$> d.
Proof.
  intros Hwk H.
  assert (Hready : ∀ u s t, stored d u s = Some t → ready now fuel u s t).
  { intros u s t Hs.
    apply (actualize_users_ready d (Repo.user_names d) Hwk d d'); try done.
    - apply NoDup_fst_map_to_list.
    - intros u0 Hin. split; [|done]. unfold Repo.user_names in Hin.
      apply list_elem_of_fmap in Hin as ([u1 m] & -> & Hin).
      apply elem_of_map_to_list in Hin. by exists m.
    - unfold stored in Hs. destruct (d !! u) as [m|] eqn:Hm; [|done].
      unfold Repo.user_names. apply list_elem_of_fmap. exists (u, m).
      split; [done|]. by apply elem_of_map_to_list. }
  split; [done|]. rewrite (actualize_tasks_spec now fuel d Hready) in H.
  by injection H as <-.
Qed.

(** X14: Whenever the sweep returns without an exception on a repository whose
    tasks carry their own user and shortcut, no stored task is before
    today, every task is still stored under its user and shortcut with
    only its date changed, and no task has been added. *)
Theorem sweep_result_is_current (d d' : db) :
  well_kept d → _actualize_tasks now fuel d = Some (Ok tt, d') →
  (∀ u s t', stored d' u s = Some t' → current now t')
  ∧ (∀ u s t, stored d u s = Some t →
       ∃ t', stored d' u s = Some t'
             ∧ ∀ k, k ≠ "date" → t' !! k = t !! k)
  ∧ (∀ u s, stored d u s = None → stored d' u s = None).
Proof.
  intros Hwk H. destruct (actualize_tasks_inv d d' Hwk H) as [Hready ->].
  split; [|split].
  - intros u s t' Hs. rewrite stored_fmap in Hs.
    destruct (stored d u s) as [t|] eqn:Ht; [|discriminate].
    injection Hs as <-. destruct (Hready u s t Ht) as (Hrun & _).
    by apply (catch_up_result_current now fuel t).
  - intros u s t Ht. exists (caught_up now fuel t).
    rewrite stored_fmap, Ht. split; [done|].
    destruct (Hready u s t Ht) as (Hrun & _).
    by apply (catch_up_frame now fuel t).
  - intros u s Ht. by rewrite stored_fmap, Ht.
Qed.

(** X15: The sweep is idempotent: run again at the same time on the repository
    it has left, with any fuel, it returns that repository unchanged. *)
Theorem sweep_idempotent (fuel' : nat) (d d' : db) :
  well_kept d → _actualize_tasks now fuel d = Some (Ok tt, d') →
  _actualize_tasks now (S fuel') d' = Some (Ok tt, d').
Proof.
  intros Hwk H. destruct (actualize_tasks_inv d d' Hwk H) as [Hready ->].
  set (d' := (fun m : gmap string task => caught_up now fuel <$> m) <$> d).
  assert (Hkept : ∀ u s t', stored d' u s = Some t' →
            catch_up now (S fuel') t' = Some (Ok t')
            ∧ t' !! "user" = Some (VStr u)
            ∧ t' !! "shortcut" = Some (VStr s)).
  { intros u s t' Hs. subst d'. rewrite stored_fmap in Hs.
    destruct (stored d u s) as [t|] eqn:Ht; [|discriminate].
    injection Hs as <-. destruct (Hready u s t Ht) as (Hrun & Hu & Hsc).
    split; [|done].
    destruct (catch_up_result_current now fuel t _ Hrun) as (D & Hd & Hle).
    by apply (catch_up_current now fuel' _ D). }
  rewrite (actualize_tasks_spec now (S fuel') d').
  - do 2 f_equal. apply map_eq. intros u. rewrite lookup_fmap.
    destruct (d' !! u) as [m|] eqn:Hm; simpl; [|done]. f_equal.
    apply map_eq. intros s. rewrite lookup_fmap.
    destruct (m !! s) as [t'|] eqn:Ht; simpl; [|done]. f_equal.
    destruct (Hkept u s t') as (Hrun & _).
    { unfold stored. by rewrite Hm. }
    unfold caught_up. by rewrite Hrun.
  - intros u s t' Hs. destruct (Hkept u s t' Hs) as (Hrun & Hu & Hsc).
    unfold ready, caught_up. by rewrite Hrun.
Qed.

(** X16: The guard lets the sweep run at most once a day: a call that ends well
    hands back a date that is not before today, namely the later of the
    date it was given and today, changes nothing when the date it was given
    is not before today, and makes every further call at the same time
    return at once. *)
Theorem actualize_once_a_day (last last' : Z) (d d' : db) :
  actualize_tasks now fuel last d = Some (Ok last', d') →
  last' = Z.max last (get_current_date now)
  ∧ ((get_current_date now ≤ last)%Z → d' = d)
  ∧ ∀ fuel' : nat, actualize_tasks now fuel' last' d' = Some (Ok last', d').
Proof.
  unfold actualize_tasks. intros H.
  destruct (Z.ltb_spec last (get_current_date now)) as [Hlt|Hge].
  - unfold mbind, cmd_bind in H.
    destruct (_actualize_tasks now fuel d) as [[[[]|e] d1]|];
      try discriminate.
    injection H as <- <-. split; [lia|]. split; [lia|]. intros fuel'.
    by rewrite Z.ltb_irrefl.
  - injection H as <- <-. split; [lia|]. split; [done|]. intros fuel'.
    by destruct (Z.ltb_spec last (get_current_date now)); [lia|].
Qed.

(** X17: Right after [__init__] the guard skips the sweep: the date it has set
    is today's. *)
Theorem init_then_guard_skips (last : Z) (d d' : db) :
  __init__ now fuel d = Some (Ok last, d') →
  last = get_current_date now
  ∧ ∀ fuel' : nat, actualize_tasks now fuel' last d' = Some (Ok last, d').
Proof.
  unfold __init__, mbind, cmd_bind. intros H.
  destruct (_actualize_tasks now fuel d) as [[[[]|e] d1]|]; try discriminate.
  injection H as <- <-. split; [done|]. intros fuel'.
  unfold actualize_tasks. by rewrite Z.ltb_irrefl.
Qed.

End SweepMore.

Lemma two_users_well_kept : well_kept two_users.
Proof.
  assert (Hok : forallb entry_ok (entries two_users) = true)
    by (reflexivity).
  by destruct (entries_ok two_users Hok).
Qed.

Lemma two_users_sweep :
  _actualize_tasks (mkDatetime 738896 0) 11 two_users
  = Some (Ok tt, two_users_swept).
Proof. reflexivity. Qed.

Lemma sweep_result_is_current_witness :
  (∀ u s t', stored two_users_swept u s = Some t' →
     current (mkDatetime 738896 0) t')
  ∧ (∀ u s t, stored two_users u s = Some t →
       ∃ t', stored two_users_swept u s = Some t'
             ∧ ∀ k, k ≠ "date" → t' !! k = t !! k)
  ∧ (∀ u s, stored two_users u s = None → stored two_users_swept u s = None).
Proof.
  exact (sweep_result_is_current (mkDatetime 738896 0) 11 two_users
           two_users_swept two_users_well_kept two_users_sweep).
Defined.

Lemma sweep_idempotent_witness :
  _actualize_tasks (mkDatetime 738896 0) 1 two_users_swept
  = Some (Ok tt, two_users_swept).
Proof.
  exact (sweep_idempotent (mkDatetime 738896 0) 11 0 two_users
           two_users_swept two_users_well_kept two_users_sweep).
Defined.

Lemma two_users_guarded :
  actualize_tasks (mkDatetime 738896 0) 11 738895 two_users
  = Some (Ok 738896%Z, two_users_swept).
Proof. reflexivity. Qed.

Lemma actualize_once_a_day_witness :
  actualize_tasks (mkDatetime 738896 0) 3 738896 two_users_swept
  = Some (Ok 738896%Z, two_users_swept).
Proof.
  exact (proj2 (proj2 (actualize_once_a_day (mkDatetime 738896 0) 11 738895
                         738896 two_users two_users_swept two_users_guarded))
           3%nat).
Defined.

Lemma two_users_init :
  __init__ (mkDatetime 738896 0) 11 two_users
  = Some (Ok 738896%Z, two_users_swept).
Proof. reflexivity. Qed.

Lemma init_then_guard_skips_witness :
  actualize_tasks (mkDatetime 738896 0) 3 738896 two_users_swept
  = Some (Ok 738896%Z, two_users_swept).
Proof.
  exact (proj2 (init_then_guard_skips (mkDatetime 738896 0) 11 738896
                  two_users two_users_swept two_users_init) 3%nat).
Defined.

(** ** More on the handlers *)

Lemma read_only_query {A} (f : db → looping A) : read_only (query f).
Proof.
  intros d d' r. unfold query. destruct (f d); [|discriminate].
  by intros [= _ <-].
Qed.

Lemma read_only_raise_or {A} (x : res A) : read_only (raise_or x).
Proof. intros d d' r. unfold raise_or. by intros [= _ <-]. Qed.

Lemma read_only_ret {A} (a : A) : read_only (mret a : cmd A).
Proof. intros d d' r. unfold mret, cmd_ret. by intros [= _ <-]. Qed.

Lemma read_only_bind {A B} (m : cmd A) (f : A → cmd B) :
  read_only m → (∀ a, read_only (f a)) → read_only (m ≫= f).
Proof.
  intros Hm Hf d d' r. unfold mbind, cmd_bind.
  destruct (m d) as [[[a|e] d1]|] eqn:E; [| |discriminate].
  - intros H. rewrite (Hf a d1 d' r H). by apply (Hm d d1 (Ok a)).
  - intros [= <- <-]. by apply (Hm d d1 (Err e)).
Qed.

Section HandlersMore.

Variable now : datetime.
Variable parse_date : value → res value.
Variable Task : dict → res task.
Variable py_str : value → string.
Variable py_repr : task → string.

(** X18: [get] and [list_all] never write: however they end, with a reply or
    with an exception, the repository is the one they were given. *)
Theorem get_and_list_all_are_read_only (fuel : nat) (user message : string) :
  read_only (get now parse_date py_repr fuel user message)
  ∧ read_only (list_all user message).
Proof.
  split.
  - unfold get. apply read_only_bind; [apply read_only_query|]. intros t.
    apply read_only_bind; [apply read_only_raise_or|]. intros key.
    apply read_only_bind; [apply read_only_query|]. intros t'.
    apply read_only_ret.
  - unfold list_all. apply read_only_bind; [apply read_only_query|].
    intros tasks. apply read_only_raise_or.
Qed.

(** X20: A command that names a shortcut the user has no task for: [update],
    [get] and [remove] end with the repository's failure and leave the
    repository as it was, and so does [complete] once the parser has
    returned. *)
Theorem unknown_shortcut_changes_nothing (fuel : nat) (user message : string)
    (d : db) (t : dict) (key : string) :
  parse_message now parse_date fuel d user message = Some (Ok t) →
  t !! "shortcut" = Some (VStr key) →
  stored d user key = None →
  update now parse_date py_str fuel user message d
    = Some (Err NotFoundError, d)
  ∧ get now parse_date py_repr fuel user message d
    = Some (Err NotFoundError, d)
  ∧ remove now parse_date py_str fuel user message d
    = Some (Err NotFoundError, d)
  ∧ (∀ v date, t !! "date" = Some v → parse_date v = Ok date →
       complete now parse_date fuel user message d
       = Some (Err NotFoundError, d)).
Proof.
  intros Hparse Hkey Hst.
  assert (Hget : Repo.get_task d user key = Err NotFoundError).
  { unfold Repo.get_task. unfold stored in Hst. by rewrite Hst. }
  assert (Hrem : Repo.remove_task d user key = Err NotFoundError).
  { unfold Repo.remove_task. unfold stored in Hst.
    destruct (d !! user) as [m|]; [|done]. simpl in Hst. by rewrite Hst. }
  split; [|split; [|split]].
  - unfold update, mbind, cmd_bind, query, raise_or, lift.
    rewrite Hparse, Hkey. simpl. by rewrite Hget.
  - unfold get, mbind, cmd_bind, query, raise_or, lift.
    rewrite Hparse, Hkey. simpl. by rewrite Hget.
  - unfold remove, mbind, cmd_bind, query, raise_or, store.
    rewrite Hparse, Hkey. simpl. by rewrite Hrem.
  - intros v date Hd Hpd.
    unfold complete, mbind, cmd_bind, query, raise_or, lift.
    rewrite Hparse, Hd, Hpd, Hkey. simpl. by rewrite Hget.
Qed.

(** X21: [remove] takes the named task out of the user's tasks and leaves
    every other task, and every user, in place. *)
Theorem remove_deletes_one (fuel : nat) (user message : string) (d : db)
    (t : dict) (key : string) (t0 : task) :
  parse_message now parse_date fuel d user message = Some (Ok t) →
  t !! "shortcut" = Some (VStr key) →
  stored d user key = Some t0 →
  ∃ d' : db,
    remove now parse_date py_str fuel user message d
    = Some (Ok (VStr ("Task " +:+ py_str (VStr key) +:+ " removed")), d')
    ∧ stored d' user key = None
    ∧ (∀ u s, (u ≠ user ∨ s ≠ key) → stored d' u s = stored d u s)
    ∧ (∀ u, is_Some (d' !! u) ↔ is_Some (d !! u)).
Proof.
  intros Hparse Hkey Hst. unfold stored in Hst.
  destruct (d !! user) as [m|] eqn:Hm; simpl in Hst; [|discriminate].
  exists (<[user := delete key m]> d). split; [|split; [|split]].
  - unfold remove, mbind, cmd_bind, query, raise_or, store,
      Repo.remove_task.
    rewrite Hparse, Hkey. simpl. by rewrite Hm, Hst.
  - unfold stored. rewrite lookup_insert_eq. simpl.
    by rewrite lookup_delete_eq.
  - intros u s Hne. unfold stored.
    destruct (decide (u = user)) as [->|Hu].
    + rewrite lookup_insert_eq, Hm. simpl.
      destruct Hne as [Hne|Hne]; [done|]. by rewrite lookup_delete_ne.
    + by rewrite lookup_insert_ne.
  - intros u. destruct (decide (u = user)) as [->|Hu].
    + rewrite lookup_insert_eq, Hm. split; eauto.
    + by rewrite lookup_insert_ne.
Qed.

(** X22: The mapping that [add] hands to the constructor of [Task] holds the
    resolved fields as they are; its user is the sender only when the
    message has no attribute named [user], and the value of that attribute
    otherwise. *)
Theorem add_user_field (fuel : nat) (d : db) (user message : string)
    (tokens : gmap string string) (fields : dict) :
  _tokenize_message message = Ok tokens →
  parse_message now parse_date fuel d user message = Some (Ok fields) →
  add_fields user fields !! "user"
  = Some (VStr (default user (tokens !! "user")))
  ∧ ∀ k, k ≠ "user" → add_fields user fields !! k = fields !! k.
Proof.
  intros Htok Hparse. unfold parse_message in Hparse.
  rewrite Htok in Hparse. simpl in Hparse.
  destruct (parse_task_inv _ _ _ _ _ _ _ Hparse) as (dv & pv & -> & _).
  unfold add_fields. split.
  - destruct (tokens !! "user") as [v|] eqn:Hu; simpl.
    + apply lookup_union_Some_l.
      rewrite !lookup_insert_ne by done. by rewrite lookup_fmap, Hu.
    + rewrite lookup_union_r; [by rewrite lookup_singleton_eq|].
      rewrite !lookup_insert_ne by done. by rewrite lookup_fmap, Hu.
  - intros k Hk.
    destruct (<["period" := VInt pv]> (<["date" := dv]> (VStr <$> tokens))
                !! k) as [x|] eqn:E.
    + by apply lookup_union_Some_l.
    + rewrite lookup_union_r by done. by rewrite lookup_singleton_ne.
Qed.

End HandlersMore.

Section CompleteMore.

Variable now : datetime.
Variable parse_date : value → res value.

(** X19: With a parser that reads strings only, as [dateparser.parse] does,
    [complete] never records a completion: the value it hands to its own
    call of the parser is the resolved date, a datetime or [None], so
    however the command ends it ends with an exception and with the
    repository as it was. *)
Theorem complete_never_records (fuel : nat) (user message : string)
    (d d' : db) (r : res value) :
  strings_only parse_date →
  complete now parse_date fuel user message d = Some (r, d') →
  d' = d ∧ ∃ e : exn, r = Err e.
Proof.
  intros [Hraise Hret] H. unfold complete in H.
  unfold mbind at 1, cmd_bind at 1, query in H.
  destruct (parse_message now parse_date fuel d user message)
    as [[t|e]|] eqn:Hparse; try discriminate.
  2:{ injection H as <- <-. eauto. }
  assert (Hdate : ∃ v, t !! "date" = Some v ∧ ∀ s, v ≠ VStr s).
  { unfold parse_message in Hparse.
    destruct (_tokenize_message message) as [tokens|]; simpl in Hparse;
      [|discriminate].
    destruct (parse_task_inv _ _ _ _ _ _ _ Hparse) as (dv & pv & -> & Hdv & _).
    exists dv. split; [by rewrite lookup_insert_ne, lookup_insert_eq|].
    rewrite lookup_fmap in Hdv.
    destruct (tokens !! "date") as [text|]; simpl in Hdv.
    - by destruct (Hret text dv Hdv) as [->|[dt ->]].
    - by destruct Hdv as (dt & _ & ->). }
  destruct Hdate as (v & Hv & Hns). destruct (Hraise v Hns) as [e He].
  unfold mbind at 1, cmd_bind at 1, raise_or in H. rewrite Hv, He in H.
  injection H as <- <-. eauto.
Qed.

End CompleteMore.

Lemma strict_parser_strings_only : strings_only strict_parser.
Proof.
  split.
  - intros v Hv. exists TypeError. destruct v; try done. by destruct (Hv s).
  - intros s v [= <-]. by left.
Qed.

Lemma complete_never_records_witness :
  complete (mkDatetime 738886 900) strict_parser 5 "bob" "/complete abc"
    busy_day = Some (Err TypeError, busy_day)
  ∧ busy_day = busy_day ∧ ∃ e : exn, (Err TypeError : res value) = Err e.
Proof.
  assert (H : complete (mkDatetime 738886 900) strict_parser 5 "bob"
                "/complete abc" busy_day = Some (Err TypeError, busy_day))
    by reflexivity.
  split; [exact H|].
  exact (complete_never_records (mkDatetime 738886 900) strict_parser 5 "bob"
           "/complete abc" busy_day busy_day (Err TypeError)
           strict_parser_strings_only H).
Defined.

Lemma unknown_shortcut_changes_nothing_witness :
  get (mkDatetime 738886 0) no_parser (fun _ => EmptyString) 1 "bob"
    "/get xyz" one_task
  = Some (Err NotFoundError, one_task).
Proof.
  refine (proj1 (proj2 (unknown_shortcut_changes_nothing
            (mkDatetime 738886 0) no_parser str_of (fun _ => EmptyString) 1
            "bob" "/get xyz"
            one_task
            (<["period" := VInt 4]>
               (<["date" := VDatetime (mkDatetime 738886 0)]>
                  ({[ "shortcut" := VStr "xyz" ]} : dict)))
            "xyz" _ _ _)));
    reflexivity.
Defined.

Lemma remove_deletes_one_witness :
  ∃ d' : db,
    remove (mkDatetime 738886 0) no_parser str_of 1 "bob" "/remove abc"
      one_task
    = Some (Ok (VStr ("Task " +:+ str_of (VStr "abc") +:+ " removed")), d')
    ∧ stored d' "bob" "abc" = None
    ∧ (∀ u s, (u ≠ "bob" ∨ s ≠ "abc") → stored d' u s = stored one_task u s)
    ∧ (∀ u, is_Some (d' !! u) ↔ is_Some (one_task !! u)).
Proof.
  apply (remove_deletes_one (mkDatetime 738886 0) no_parser str_of 1 "bob"
           "/remove abc" one_task
           (<["period" := VInt 4]>
              (<["date" := VDatetime (mkDatetime 738886 0)]>
                 ({[ "shortcut" := VStr "abc" ]} : dict)))
           "abc" (chore "bob" "abc" 738900 7 false));
    reflexivity.
Defined.

Lemma add_user_field_witness :
  add_fields "bob"
    (<["period" := VInt 4]>
       (<["date" := VDatetime (mkDatetime 738886 0)]>
          (VStr <$> <["user" := "eve"]> (<["text" := "buy milk"]>
                      {[ "shortcut" := "abc" ]})))) !! "user"
  = Some (VStr "eve").
Proof.
  refine (proj1 (add_user_field (mkDatetime 738886 0) no_parser 1 ∅ "bob"
                   "/add abc buy milk user:eve"
                   (<["user" := "eve"]> (<["text" := "buy milk"]>
                      {[ "shortcut" := "abc" ]})) _ _ _));
    reflexivity.
Defined.

(** X23: [start] and [stop] never raise the [ValueError] of the repository: a
    new user is added and can be removed again, which gives the repository
    back as it was; a user that is there already is told so and keeps its
    tasks; a user that is not there cannot be stopped and nothing
    changes. *)
Theorem start_and_stop_reply (user m1 m2 : string) (d : db) :
  (d !! user = None →
     start user m1 d
     = Some (Ok (VStr ("Added user " +:+ user +:+ " successfully")),
             <[user := ∅]> d)
     ∧ stop user m2 (<[user := ∅]> d)
       = Some (Ok (VStr ("Removed user " +:+ user +:+ " successfully")), d)
     ∧ stop user m2 d = Some (Ok (VStr ("No user " +:+ user)), d))
  ∧ (is_Some (d !! user) →
     start user m1 d
     = Some (Ok (VStr ("User " +:+ user +:+ " already active")), d)).
Proof.
  unfold start, stop, except_ValueError, mbind, cmd_bind, store,
    RepoUsers.add_user, RepoUsers.remove_user.
  split.
  - intros Hnone. rewrite Hnone, lookup_insert_eq.
    by rewrite delete_insert_id.
  - intros [m Hm]. by rewrite Hm.
Qed.

Lemma start_and_stop_reply_witness :
  start "eve" "/start" one_task
  = Some (Ok (VStr ("Added user " +:+ "eve" +:+ " successfully")),
          <["eve" := ∅]> one_task).
Proof.
  refine (proj1 (proj1 (start_and_stop_reply "eve" "/start" "/stop" one_task)
                   _)).
  reflexivity.
Defined.

Lemma shortcuts_of_kept (kts : list (string * task)) :
  (∀ s t, (s, t) ∈ kts → t !! "shortcut" = Some (VStr s)) →
  shortcuts kts.*2 = Ok (VStr <$> kts.*1).
Proof.
  induction kts as [|[s t] rest IH]; intros Hall; [done|].
  change (((s, t) :: rest).*2) with (t :: rest.*2).
  change (((s, t) :: rest).*1) with (s :: rest.*1).
  simpl. unfold getattr. rewrite (Hall s t) by left. simpl.
  rewrite IH; [done|]. intros s' t' Hin. apply Hall. by right.
Qed.

Lemma all_str_strings (l : list string) : all_str (VStr <$> l) = Ok l.
Proof. induction l as [|s l IH]; [done|]. csimpl. by rewrite IH. Qed.

(** X24: In a repository whose tasks carry the shortcut they are stored under,
    [list_all] replies with the stored shortcuts of the user, one on each
    line, and changes nothing. *)
Theorem list_all_lists_shortcuts (user message : string) (d : db)
    (m : gmap string task) :
  well_kept d → d !! user = Some m →
  list_all user message d
  = Some (Ok (VStr (join newline (map_to_list m).*1)), d).
Proof.
  intros Hwk Hm.
  assert (E : (vs ← shortcuts (map_to_list m).*2; ss ← all_str vs;
               Ok (VStr (join newline ss)))
              = Ok (VStr (join newline (map_to_list m).*1))).
  { rewrite (shortcuts_of_kept (map_to_list m)).
    - unfold mbind, res_bind. cbv beta iota. by rewrite all_str_strings.
    - intros s t Hin%elem_of_map_to_list. apply (Hwk user s t).
      unfold stored. by rewrite Hm. }
  unfold list_all, mbind at 1, cmd_bind, query, lift, raise_or,
    Repo.get_users_tasks.
  rewrite Hm. simpl default. by rewrite E.
Qed.

Lemma one_task_well_kept : well_kept one_task.
Proof.
  assert (Hok : forallb entry_ok (entries one_task) = true)
    by (reflexivity).
  by destruct (entries_ok one_task Hok).
Qed.

Lemma list_all_lists_shortcuts_witness :
  list_all "bob" "/list_all" one_task = Some (Ok (VStr "abc"), one_task).
Proof.
  exact (list_all_lists_shortcuts "bob" "/list_all" one_task
           {[ "abc" := chore "bob" "abc" 738900 7 false ]}
           one_task_well_kept eq_refl).
Defined.

(** ** A message with a text and one attribute *)

Lemma append_assoc (a b c : string) : (a +:+ b) +:+ c = a +:+ b +:+ c.
Proof.
  induction a as [|x a IH]; [done|]. by rewrite !append_cons, IH.
Qed.

Lemma rev_app_append (s acc : string) :
  String.rev_app s acc = String.rev s +:+ acc.
Proof.
  unfold String.rev. revert acc.
  induction s as [|c s IH]; intros acc; simpl; [done|].
  rewrite (IH (String c acc)), (IH (String c EmptyString)).
  by rewrite append_assoc, append_cons, append_empty_l.
Qed.

Lemma rev_cons (c : ascii) (s : string) :
  String.rev (String c s) = String.rev s +:+ String c EmptyString.
Proof. unfold String.rev at 1. simpl. by rewrite rev_app_append. Qed.

Lemma rev_append (a b : string) :
  String.rev (a +:+ b) = String.rev b +:+ String.rev a.
Proof.
  induction a as [|c a IH].
  - by rewrite append_empty_l, append_empty_r.
  - rewrite append_cons, !rev_cons, IH. by rewrite append_assoc.
Qed.

Lemma rev_involutive (s : string) : String.rev (String.rev s) = s.
Proof.
  induction s as [|c s IH]; [done|].
  by rewrite rev_cons, rev_append, IH.
Qed.

Lemma all_space_rev (s : string) : all_space (String.rev s) = all_space s.
Proof.
  unfold String.rev. rewrite all_space_rev_app. simpl.
  by rewrite andb_true_r.
Qed.

Lemma lstrip_idempotent (s : string) :
  PyStr.lstrip (PyStr.lstrip s) = PyStr.lstrip s.
Proof.
  induction s as [|c s IH]; [done|]. simpl.
  destruct (PyStr.isspace c) eqn:E; [done|]. simpl. by rewrite E.
Qed.

(** Stripping on the left never reaches a last character that is not
    whitespace. *)
Lemma lstrip_keeps_last (a : string) (c : ascii) :
  PyStr.isspace c = false →
  ∃ a', PyStr.lstrip (a +:+ String c EmptyString) = a' +:+ String c EmptyString.
Proof.
  intros Hc. induction a as [|x a IH].
  - exists EmptyString. rewrite append_empty_l. simpl. by rewrite Hc.
  - rewrite append_cons. simpl. destruct (PyStr.isspace x); [done|].
    exists (String x a). by rewrite append_cons.
Qed.

(** What [rstrip] leaves of a string that starts with a token still starts
    with it. *)
Lemma rstrip_starts_token (s : string) :
  starts_token s → starts_token (PyStr.rstrip s).
Proof.
  destruct s as [|c s]; [done|]. simpl. intros Hc. unfold PyStr.rstrip.
  rewrite rev_cons. destruct (lstrip_keeps_last (String.rev s) c Hc) as [a' ->].
  rewrite rev_append. simpl. done.
Qed.

Lemma rstrip_idempotent (s : string) :
  PyStr.rstrip (PyStr.rstrip s) = PyStr.rstrip s.
Proof.
  unfold PyStr.rstrip. by rewrite rev_involutive, lstrip_idempotent.
Qed.

Lemma strip_starts_token (s : string) :
  starts_token s → PyStr.strip s = PyStr.rstrip s.
Proof.
  intros Hs. unfold PyStr.strip.
  by rewrite (proj1 (starts_token_lstrip s Hs)).
Qed.

Lemma strip_word (w : string) : word w → PyStr.strip w = w.
Proof.
  intros Hw. unfold PyStr.strip, PyStr.rstrip.
  pose proof (lstrip_word w EmptyString Hw) as H1.
  rewrite append_empty_r in H1. rewrite H1.
  pose proof (lstrip_word (String.rev w) EmptyString (word_rev w Hw)) as H2.
  rewrite append_empty_r in H2. by rewrite H2, rev_involutive.
Qed.

(** [rsplit(maxsplit=1)] cuts the last word off and drops the whitespace
    in front of it. *)
Lemma rsplit_last_word (text ws k : string) :
  starts_token text → gap ws → word k →
  PyStr.rsplit 1 (text +:+ ws +:+ k) = [PyStr.rstrip text; k].
Proof.
  intros Ht Hws Hk. unfold PyStr.rsplit.
  rewrite !rev_append.
  assert (Hgap : gap (String.rev ws)).
  { destruct Hws as [Hne Hall]. split.
    - intros H. by apply rev_app_empty in H as [? _].
    - by rewrite all_space_rev. }
  pose proof (split_cons 0 EmptyString (String.rev k)
                (String.rev ws +:+ String.rev text) eq_refl (word_rev k Hk)
                (gap_ends_word _ _ Hgap)) as H.
  rewrite append_empty_l in H.
  rewrite append_assoc, H.
  change (PyStr.split 0 (String.rev ws +:+ String.rev text)) with
    (match PyStr.lstrip (String.rev ws +:+ String.rev text) with
     | EmptyString => []
     | s1 => [s1]
     end).
  rewrite (lstrip_all_space _ _ (proj2 Hgap)).
  assert (Hne : PyStr.lstrip (String.rev text) ≠ EmptyString).
  { intros E. apply lstrip_empty in E. rewrite all_space_rev in E.
    destruct text as [|c text]; [done|]. simpl in Ht, E.
    rewrite Ht in E. discriminate. }
  destruct (PyStr.lstrip (String.rev text)) as [|c r] eqn:E; [done|].
  rewrite <- E. unfold PyStr.rstrip. simpl.
  by rewrite rev_involutive.
Qed.

(** X5: The message format of [add]: a shortcut, a text and one attribute
    [key:value]. The tokenizer yields the text without the whitespace that
    ends it, and the value, stripped, under the key. A key named [shortcut]
    takes the place of the shortcut. *)
Theorem tokenize_text_and_attribute
    (ws1 verb ws2 sc ws3 text ws4 k value : string) :
  all_space ws1 = true → word verb → gap ws2 → word sc → gap ws3 →
  starts_token text → no_colon text = true → gap ws4 →
  word k → no_colon k = true → k ≠ "text" → no_colon value = true →
  _tokenize_message
    (ws1 +:+ verb +:+ ws2 +:+ sc +:+ ws3 +:+ (text +:+ ws4 +:+ k) +:+ ":"
       +:+ value)
  = Ok (<[k := PyStr.strip value]>
          (<["text" := PyStr.strip text]> {[ "shortcut" := sc ]})).
Proof.
  intros H1 Hv H2 Hs H3 Ht Hct H4 Hk Hck Hkt Hcv. unfold _tokenize_message.
  assert (Hstart : starts_token ((text +:+ ws4 +:+ k) +:+ ":" +:+ value)).
  { destruct text as [|c text]; [done|]. by rewrite !append_cons. }
  rewrite split_three_parts by done.
  assert (Hnc : no_colon (text +:+ ws4 +:+ k) = true).
  { clear Hstart Ht. induction text as [|c text IH].
    - rewrite append_empty_l. destruct H4 as [_ H4]. clear -H4 Hck.
      induction ws4 as [|c ws4 IH]; [by rewrite append_empty_l|].
      rewrite append_cons. simpl in *.
      apply andb_true_iff in H4 as [Hc H4]. rewrite (IH H4), andb_true_r.
      destruct (Ascii.eqb_spec c ":") as [->|]; [discriminate|done].
    - rewrite append_cons. simpl in *.
      apply andb_true_iff in Hct as [-> Hct]. by apply IH. }
  rewrite split_on_first_colon by done.
  rewrite (split_on_no_colon value Hcv).
  simpl tokenize_attrs. rewrite (rsplit_last_word text ws4 k Ht H4 Hk).
  simpl fmap.
  rewrite (strip_word k Hk).
  assert (Hst : PyStr.strip (PyStr.rstrip text) = PyStr.strip text).
  { rewrite (strip_starts_token text Ht).
    rewrite (strip_starts_token _ (rstrip_starts_token text Ht)).
    apply rstrip_idempotent. }
  rewrite Hst. simpl.
  rewrite lookup_insert_ne by done. rewrite lookup_insert_eq.
  pose proof (strip_not_empty text Ht) as Hne.
  by destruct (PyStr.strip text).
Qed.

Lemma tokenize_text_and_attribute_witness :
  _tokenize_message
    ("" +:+ "/add" +:+ " " +:+ "abc" +:+ " " +:+ ("buy milk" +:+ "  "
       +:+ "period") +:+ ":" +:+ " 2 ")
  = Ok (<["period" := PyStr.strip " 2 "]>
          (<["text" := PyStr.strip "buy milk"]> {[ "shortcut" := "abc" ]})).
Proof.
  apply (tokenize_text_and_attribute "" "/add" " " "abc" " " "buy milk" "  "
           "period" " 2 ");
    repeat split; (reflexivity || discriminate).
Defined.

(** ** The invariant of the repository *)

Lemma well_kept_insert (d : db) (u s : string) (m : gmap string task)
    (t : task) :
  well_kept d → d !! u = Some m →
  t !! "user" = Some (VStr u) → t !! "shortcut" = Some (VStr s) →
  well_kept (<[u := <[s := t]> m]> d).
Proof.
  intros Hwk Hm Hu Hs u' s' t'. unfold stored.
  destruct (decide (u' = u)) as [->|Hne].
  - rewrite lookup_insert_eq. simpl.
    destruct (decide (s' = s)) as [->|Hns].
    + rewrite lookup_insert_eq. by intros [= <-].
    + rewrite lookup_insert_ne by done. intros H. apply (Hwk u s' t').
      unfold stored. by rewrite Hm.
  - rewrite lookup_insert_ne by done. apply (Hwk u' s' t').
Qed.

Lemma well_kept_delete_task (d : db) (u s : string) (m : gmap string task) :
  well_kept d → d !! u = Some m → well_kept (<[u := delete s m]> d).
Proof.
  intros Hwk Hm u' s' t'. unfold stored.
  destruct (decide (u' = u)) as [->|Hne].
  - rewrite lookup_insert_eq. simpl. intros [_ H]%lookup_delete_Some.
    apply (Hwk u s' t'). unfold stored. by rewrite Hm.
  - rewrite lookup_insert_ne by done. apply (Hwk u' s' t').
Qed.

Lemma well_kept_add_user (d : db) (u : string) :
  well_kept d → well_kept (<[u := ∅]> d).
Proof.
  intros Hwk u' s' t'. unfold stored.
  destruct (decide (u' = u)) as [->|Hne].
  - rewrite lookup_insert_eq. simpl. by rewrite lookup_empty.
  - rewrite lookup_insert_ne by done. apply (Hwk u' s' t').
Qed.

Lemma well_kept_remove_user (d : db) (u : string) :
  well_kept d → well_kept (delete u d).
Proof.
  intros Hwk u' s' t'. unfold stored.
  destruct (decide (u' = u)) as [->|Hne].
  - by rewrite lookup_delete_eq.
  - rewrite lookup_delete_ne by done. apply (Hwk u' s' t').
Qed.

Lemma preserves_query {A} (P : db → Prop) (f : db → looping A) :
  preserves P (query f).
Proof.
  intros d d' r HP. unfold query. destruct (f d); [|discriminate].
  by intros [= _ <-].
Qed.

Lemma preserves_raise_or {A} (P : db → Prop) (x : res A) :
  preserves P (raise_or x).
Proof. intros d d' r HP. unfold raise_or. by intros [= _ <-]. Qed.

Lemma preserves_ret {A} (P : db → Prop) (a : A) :
  preserves P (mret a : cmd A).
Proof. intros d d' r HP. unfold mret, cmd_ret. by intros [= _ <-]. Qed.

Lemma preserves_bind {A B} (P : db → Prop) (m : cmd A) (f : A → cmd B) :
  preserves P m → (∀ a, preserves P (f a)) → preserves P (m ≫= f).
Proof.
  intros Hm Hf d d' r HP. unfold mbind, cmd_bind.
  destruct (m d) as [[[a|e] d1]|] eqn:E; [| |discriminate].
  - intros H. apply (Hf a d1 d' r); [|done]. by apply (Hm d d1 (Ok a)).
  - intros [= <- <-]. by apply (Hm d d1 (Err e)).
Qed.

Lemma preserves_store (P : db → Prop) (f : db → res db) :
  (∀ d d1, P d → f d = Ok d1 → P d1) → preserves P (store f).
Proof.
  intros Hf d d' r HP. unfold store. destruct (f d) as [d1|e] eqn:E.
  - intros [= _ <-]. by apply (Hf d).
  - by intros [= _ <-].
Qed.

Lemma preserves_except (P : db → Prop) (body : cmd value) (reply : value) :
  preserves P body → preserves P (except_ValueError body reply).
Proof.
  intros Hb d d' r HP. unfold except_ValueError.
  destruct (body d) as [[[a|e] d1]|] eqn:E; [| |discriminate].
  - intros [= <- <-]. by apply (Hb d d1 (Ok a)).
  - destruct e; intros [= <- <-]; by apply (Hb d d1 _ HP E).
Qed.

(** [update_task(task)] writes under the task's own user and shortcut. *)
Lemma update_own_kept (t : task) : preserves well_kept (update_own t).
Proof.
  intros d d' r Hwk. unfold update_own, mbind, cmd_bind, raise_or, store,
    Repo.update_task, getattr.
  destruct (t !! "user") as [[| | |u| |]|] eqn:Hu; simpl;
    try (by intros [= _ <-]).
  destruct (t !! "shortcut") as [[| | |s| |]|] eqn:Hs; simpl;
    try (by intros [= _ <-]).
  destruct (d !! u) as [m|] eqn:Hm; [|by intros [= _ <-]].
  destruct (m !! s) as [t0|] eqn:Ht0; [|by intros [= _ <-]].
  intros [= _ <-]. by apply well_kept_insert.
Qed.

Lemma add_task_kept (t : task) (d d1 : db) :
  well_kept d → Repo.add_task d t = Ok d1 → well_kept d1.
Proof.
  intros Hwk. unfold Repo.add_task, getattr.
  destruct (t !! "user") as [[| | |u| |]|] eqn:Hu; simpl; try discriminate.
  destruct (t !! "shortcut") as [[| | |s| |]|] eqn:Hs; simpl;
    try discriminate.
  destruct (d !! u) as [m|] eqn:Hm; [|discriminate].
  destruct (m !! s) as [t0|] eqn:Ht0; [discriminate|].
  intros [= <-]. by apply well_kept_insert.
Qed.

Lemma remove_task_kept (u s : string) (d d1 : db) :
  well_kept d → Repo.remove_task d u s = Ok d1 → well_kept d1.
Proof.
  intros Hwk. unfold Repo.remove_task.
  destruct (d !! u) as [m|] eqn:Hm; [|discriminate].
  destruct (m !! s) as [t0|] eqn:Ht0; [|discriminate].
  intros [= <-]. by apply well_kept_delete_task.
Qed.

Lemma actualize_each_kept (now : datetime) (fuel : nat) (tasks : list task) :
  preserves well_kept (actualize_each now fuel tasks).
Proof.
  induction tasks as [|t rest IH]; [apply preserves_ret|].
  simpl. apply preserves_bind; [apply preserves_query|]. intros t'.
  apply preserves_bind; [apply update_own_kept|]. by intros _.
Qed.

Lemma actualize_users_kept (now : datetime) (fuel : nat)
    (users : list string) :
  preserves well_kept (actualize_users now fuel users).
Proof.
  induction users as [|u rest IH]; [apply preserves_ret|].
  simpl. apply preserves_bind; [apply preserves_query|]. intros tasks.
  apply preserves_bind; [apply actualize_each_kept|]. by intros _.
Qed.

Lemma actualize_tasks_kept (now : datetime) (fuel : nat) :
  preserves well_kept (_actualize_tasks now fuel).
Proof.
  unfold _actualize_tasks. apply preserves_bind; [apply preserves_query|].
  intros users. apply actualize_users_kept.
Qed.

Section Invariant.

Variable now : datetime.
Variable parse_date : value → res value.
Variable Task : dict → res task.
Variable py_str : value → string.

(** What [update] does when its message resolves and names a stored
    task. *)
Lemma update_stores (fuel : nat) (user message : string) (d : db)
    (upd : dict) (key : string) (m : gmap string task) (t : task) :
  parse_message now parse_date fuel d user message = Some (Ok upd) →
  upd !! "shortcut" = Some (VStr key) →
  d !! user = Some m → m !! key = Some t →
  update now parse_date py_str fuel user message d
  = Some (Ok (VStr ("Successfully updated task " +:+ py_str (VStr key))),
          <[user := <[key := upd ∪ t]> m]> d).
Proof.
  intros Hparse Hkey Hm Ht.
  assert (Hsc : (upd ∪ t) !! "shortcut" = Some (VStr key))
    by (by apply lookup_union_Some_l).
  unfold update, mbind, cmd_bind, query, raise_or, store, lift.
  rewrite Hparse, Hkey. simpl.
  unfold Repo.get_task, Repo.update_task, getattr.
  rewrite Hm. simpl. rewrite Ht, Hsc. simpl. by rewrite Ht.
Qed.

Lemma update_kept (fuel : nat) (user message : string)
    (tokens : gmap string string) :
  _tokenize_message message = Ok tokens → tokens !! "user" = None →
  preserves well_kept (update now parse_date py_str fuel user message).
Proof.
  intros Htok Huser d d' r Hwk H.
  destruct (parse_message now parse_date fuel d user message)
    as [[upd|e]|] eqn:Hparse.
  - assert (Hupd : upd !! "user" = None).
    { unfold parse_message in Hparse. rewrite Htok in Hparse.
      simpl in Hparse.
      destruct (parse_task_inv _ _ _ _ _ _ _ Hparse) as (dv & pv & -> & _).
      rewrite !lookup_insert_ne by done. by rewrite lookup_fmap, Huser. }
    unfold update, mbind, cmd_bind, query, raise_or, lift in H.
    rewrite Hparse in H.
    destruct (upd !! "shortcut") as [[| | |key| |]|] eqn:Hkey; simpl in H;
      try (by injection H as _ <-).
    unfold Repo.get_task in H.
    destruct (d !! user) as [m|] eqn:Hm; simpl in H;
      [|by injection H as _ <-].
    destruct (m !! key) as [t|] eqn:Ht; [|by injection H as _ <-].
    pose proof (update_stores fuel user message d upd key m t Hparse Hkey
                  Hm Ht) as E.
    unfold update, mbind, cmd_bind, query, raise_or, lift in E.
    rewrite Hparse, Hkey in E. simpl in E. unfold Repo.get_task in E.
    rewrite Hm in E. simpl in E. rewrite Ht in E. rewrite E in H.
    injection H as _ <-. apply well_kept_insert; try done.
    + rewrite lookup_union_r by done. apply (Hwk user key t).
      unfold stored. by rewrite Hm.
    + by apply lookup_union_Some_l.
  - unfold update, mbind, cmd_bind, query in H. rewrite Hparse in H.
    by injection H as _ <-.
  - unfold update, mbind, cmd_bind, query in H. rewrite Hparse in H.
    discriminate.
Qed.

(** X25: The repository stays well kept, that is every task stays stored under
    the user and the shortcut it carries, through [add], [remove],
    [complete], [start], [stop], the sweep, its guard and [__init__],
    however they end, and through [update] when the message has no
    attribute named [user]. *)
Theorem well_kept_invariant (fuel : nat) (user message : string) :
  preserves well_kept (add now parse_date Task py_str fuel user message)
  ∧ preserves well_kept (remove now parse_date py_str fuel user message)
  ∧ preserves well_kept (complete now parse_date fuel user message)
  ∧ preserves well_kept (start user message)
  ∧ preserves well_kept (stop user message)
  ∧ preserves well_kept (_actualize_tasks now fuel)
  ∧ (∀ last, preserves well_kept (actualize_tasks now fuel last))
  ∧ preserves well_kept (__init__ now fuel)
  ∧ (∀ tokens, _tokenize_message message = Ok tokens →
       tokens !! "user" = None →
       preserves well_kept (update now parse_date py_str fuel user message)).
Proof.
  repeat apply conj.
  - unfold add. apply preserves_bind; [apply preserves_query|]. intros f.
    apply preserves_bind; [apply preserves_raise_or|]. intros t.
    apply preserves_bind.
    { apply preserves_store. intros d d1. apply add_task_kept. }
    intros _. apply preserves_bind; [apply preserves_raise_or|]. intros sc.
    apply preserves_ret.
  - unfold remove. apply preserves_bind; [apply preserves_query|]. intros t.
    apply preserves_bind; [apply preserves_raise_or|]. intros key.
    apply preserves_bind.
    { apply preserves_store. intros d d1. apply remove_task_kept. }
    intros _. apply preserves_ret.
  - unfold complete. apply preserves_bind; [apply preserves_query|].
    intros t. apply preserves_bind; [apply preserves_raise_or|]. intros date.
    apply preserves_bind; [apply preserves_raise_or|]. intros key.
    apply preserves_bind; [apply preserves_query|]. intros t'.
    apply preserves_bind; [apply preserves_raise_or|]. intros t1.
    apply preserves_bind; [apply preserves_raise_or|]. intros t2.
    apply preserves_bind; [apply update_own_kept|]. intros _.
    apply preserves_ret.
  - unfold start. apply preserves_except. apply preserves_bind.
    { apply preserves_store. intros d d1 Hwk. unfold RepoUsers.add_user.
      destruct (d !! user); [discriminate|]. intros [= <-].
      by apply well_kept_add_user. }
    intros _. apply preserves_ret.
  - unfold stop. apply preserves_except. apply preserves_bind.
    { apply preserves_store. intros d d1 Hwk. unfold RepoUsers.remove_user.
      destruct (d !! user); [|discriminate]. intros [= <-].
      by apply well_kept_remove_user. }
    intros _. apply preserves_ret.
  - apply actualize_tasks_kept.
  - intros last. unfold actualize_tasks.
    destruct (last <? get_current_date now)%Z; [|apply preserves_ret].
    apply preserves_bind; [apply actualize_tasks_kept|]. intros _.
    apply preserves_ret.
  - unfold __init__. apply preserves_bind; [apply actualize_tasks_kept|].
    intros _. apply preserves_ret.
  - intros tokens Htok Huser. by apply (update_kept fuel user message tokens).
Qed.

(** X26: An attribute named [user] in the message of [update] is written over
    the owner of the task: the task stays stored with the sender, carries
    the other user from then on, and the repository is no longer well
    kept. *)
Theorem update_reassigns_user (fuel : nat) (user message : string) (d : db)
    (tokens : gmap string string) (upd : dict) (key other : string)
    (t : task) :
  _tokenize_message message = Ok tokens →
  _parse_task now parse_date fuel d user (VStr <$> tokens) = Some (Ok upd) →
  tokens !! "shortcut" = Some key → stored d user key = Some t →
  tokens !! "user" = Some other → other ≠ user →
  ∃ (reply : value) (d' : db) (t' : task),
    update now parse_date py_str fuel user message d = Some (Ok reply, d')
    ∧ stored d' user key = Some t'
    ∧ t' !! "user" = Some (VStr other)
    ∧ ¬ well_kept d'.
Proof.
  intros Htok Hparse Hkey Hst Hother Hne. unfold stored in Hst.
  destruct (d !! user) as [m|] eqn:Hm; simpl in Hst; [|discriminate].
  assert (Hfield : ∀ k v, tokens !! k = Some v → k ≠ "date" →
                     k ≠ "period" → upd !! k = Some (VStr v)).
  { intros k v Hk H1 H2.
    destruct (parse_task_inv _ _ _ _ _ _ _ Hparse) as (dv & pv & -> & _).
    rewrite !lookup_insert_ne by done. by rewrite lookup_fmap, Hk. }
  assert (Hpm : parse_message now parse_date fuel d user message
                = Some (Ok upd)).
  { unfold parse_message. by rewrite Htok. }
  exists (VStr ("Successfully updated task " +:+ py_str (VStr key))),
    (<[user := <[key := upd ∪ t]> m]> d), (upd ∪ t).
  assert (Hst' : stored (<[user := <[key := upd ∪ t]> m]> d) user key
                 = Some (upd ∪ t)).
  { unfold stored. rewrite lookup_insert_eq. simpl.
    by rewrite lookup_insert_eq. }
  assert (Hu' : (upd ∪ t) !! "user" = Some (VStr other)).
  { apply lookup_union_Some_l. by apply Hfield. }
  split; [|split; [done|split; [done|]]].
  - apply update_stores; try done. by apply Hfield.
  - intros Hwk. destruct (Hwk user key (upd ∪ t) Hst') as [Hu _].
    rewrite Hu' in Hu. by injection Hu as ->.
Qed.

End Invariant.

Lemma well_kept_invariant_witness : well_kept (<["eve" := ∅]> one_task).
Proof.
  pose proof (well_kept_invariant (mkDatetime 738886 0) no_parser
                (fun t => Ok t) str_of 1 "eve" "/start")
    as (_ & _ & _ & Hstart & _).
  apply (Hstart one_task (<["eve" := ∅]> one_task)
           (Ok (VStr ("Added user " +:+ "eve" +:+ " successfully")))
           one_task_well_kept).
  reflexivity.
Defined.

Lemma update_reassigns_user_witness :
  ∃ (reply : value) (d' : db) (t' : task),
    update (mkDatetime 738886 0) no_parser str_of 1 "bob"
      "/update abc feed the cat user:eve" one_task = Some (Ok reply, d')
    ∧ stored d' "bob" "abc" = Some t'
    ∧ t' !! "user" = Some (VStr "eve")
    ∧ ¬ well_kept d'.
Proof.
  apply (update_reassigns_user (mkDatetime 738886 0) no_parser str_of 1 "bob"
           "/update abc feed the cat user:eve" one_task
           (<["user" := "eve"]> (<["text" := "feed the cat"]>
              {[ "shortcut" := "abc" ]}))
           (<["period" := VInt 4]>
              (<["date" := VDatetime (mkDatetime 738886 0)]>
                 (VStr <$> <["user" := "eve"]> (<["text" := "feed the cat"]>
                             {[ "shortcut" := "abc" ]}))))
           "abc" "eve" (chore "bob" "abc" 738900 7 false));
    try (reflexivity).
  discriminate.
Defined.
